(** * Position ledger of zipline-trader: a shallow embedding

    The development follows [zipline/finance/position.py],
    [zipline/finance/transaction.py] and [zipline/finance/rounding.py].

    Numbers.  The Python code computes on [float] (and on [int] where a
    literal or [int(...)] produces one).  A quantity is held as the exact
    rational [Q] it denotes, and Python's [==] on numbers is [Qeq] ([==]).
    The control flow of the ledger (comparisons against [1e-3], signs, zero
    tests) is kept as written.  In [update],
    [adjust_commission_cost_basis] and the dividend handlers a float
    operation is written as the exact operation: what is stated of them is
    the code's own expression, which the double computation rounds in its
    last digit.  In [handle_split] and [round_order] the last digit of a
    quotient or product decides a whole share, cent or step once it is
    floored, truncated or rounded to cents: they are written over the
    operations of the machine ([FloatArith]), and [binary64] gives those
    of IEEE 754 doubles.  A rational has no sign of zero, no infinity and
    no NaN; [update_exit_prices_float] reads the one argument whose sign
    of zero the code looks at as a float.

    Effects.  A method of [Position] mutates [self] and may raise.  A
    raised exception does not undo the assignments made before it, so a
    method is a function from the position before the call to an outcome
    (a value or an exception) together with the position after it. *)

From Stdlib Require Import ZArith QArith Qabs Qround Qpower Bool List String.
From Stdlib Require Import Setoid Morphisms Lia Lqa SpecFloat.
Import ListNotations.

Local Open Scope Q_scope.

(** ** Python numbers over [Q] *)

(** [x < y] on numbers, as a boolean. *)
Definition Qlt_bool (x y : Q) : bool := negb (Qle_bool y x).

(** [math.copysign(1, x)]: magnitude 1 with the sign of [x]; a zero counts
    as positive. *)
Definition copysign1 (x : Q) : Q := if Qlt_bool x 0 then -(1) else 1.

(** [np.floor(x)], kept as a number. *)
Definition np_floor (x : Q) : Q := inject_Z (Qfloor x).

(** [round(x)] with no digits: the nearest integer, ties to the even one. *)
Definition py_round (x : Q) : Z :=
  let f := Qfloor x in
  match Qcompare (x - inject_Z f) (1 # 2) with
  | Lt => f
  | Gt => (f + 1)%Z
  | Eq => if Z.even f then f else (f + 1)%Z
  end.

(** [round(x, 2)]: the nearest multiple of 0.01, ties to even. *)
Definition round2 (x : Q) : Q := inject_Z (py_round (x * 100)) / 100.

(** [int(x)] on a float: truncation towards zero. *)
Definition py_int (x : Q) : Z := if Qlt_bool x 0 then Qceiling x else Qfloor x.

(** The three-valued sign of a number, [-1], [0] or [+1]; the code has
    [copysign] only, the statements use [sign] for comparison. *)
Definition sign (x : Q) : Q :=
  if Qlt_bool x 0 then -(1) else if Qlt_bool 0 x then 1 else 0.

(** ** Exceptions and outcomes *)

Inductive exn : Type :=
| Exception (msg : string)   (* raise Exception(msg) *)
| ValueError                 (* raise ValueError(...) *)
| ZeroDivisionError.         (* x / 0 *)

Inductive result (A : Type) : Type :=
| Ok (a : A)
| Raise (e : exn).
Arguments Ok {A} a.
Arguments Raise {A} e.

Definition result_bind {A B} (r : result A) (k : A -> result B) : result B :=
  match r with
  | Ok a => k a
  | Raise e => Raise e
  end.

(** [x / y] on floats raises when the divisor is zero. *)
Definition truediv (x y : Q) : result Q :=
  if Qeq_bool y 0 then Raise ZeroDivisionError else Ok (x / y).

(** ** Machine arithmetic

    The operations of Python's [float] whose rounding the code goes on to
    floor, truncate or round to cents, on the rationals their operands
    denote: [x / y] for a non-zero [y], [x * y], [x - y] and [round(x, 2)].
    An [int] operand is converted to [float] as Python converts it.
    [np.floor(x)], [round(x)], [int(x)], [abs(x)], [x - round(x)] and the
    comparisons are exact on doubles, and are written as such. *)
Class FloatArith : Type := {
  float_div : Q -> Q -> Q;
  float_mul : Q -> Q -> Q;
  float_sub : Q -> Q -> Q;
  float_round2 : Q -> Q
}.

(** [x / y] on floats, with its [ZeroDivisionError]. *)
Definition float_truediv {F : FloatArith} (x y : Q) : result Q :=
  if Qeq_bool y 0 then Raise ZeroDivisionError else Ok (float_div x y).

(** *** IEEE 754 doubles

    [spec_float] at precision 53 and maximal exponent 1024 is binary64,
    the [float] of CPython and [np.float64]; [SFdiv], [SFmul] and [SFsub]
    round to nearest, ties to even. *)

(** The double nearest to a rational (ties to even): how Python reads a
    decimal literal and converts an [int].  A double is read as itself. *)
Definition float_of_Q (x : Q) : spec_float :=
  match Qnum x with
  | Z0 => S754_zero false
  | Zpos n => SFdiv 53 1024 (S754_finite false n 0) (S754_finite false (Qden x) 0)
  | Zneg n => SFdiv 53 1024 (S754_finite true n 0) (S754_finite false (Qden x) 0)
  end.

(** The rational a finite double denotes.  Both zeros denote 0; an
    infinity or a NaN denotes no rational (they arise from overflow and
    from an infinite operand only) and is read as 0. *)
Definition Q_of_float (f : spec_float) : Q :=
  match f with
  | S754_finite s m e =>
      if s then - (inject_Z (Z.pos m) * 2 ^ e) else inject_Z (Z.pos m) * 2 ^ e
  | _ => 0
  end.

(** The double written [x], as a rational: [double (1 # 10)] is the
    Python literal [0.1]. *)
Definition double (x : Q) : Q := Q_of_float (float_of_Q x).

(** The operations of doubles.  [round(x, 2)] of CPython rounds the exact
    value of the double to two decimals, ties to even, and returns the
    double nearest to that decimal. *)
Definition binary64 : FloatArith := {|
  float_div := fun x y => Q_of_float (SFdiv 53 1024 (float_of_Q x) (float_of_Q y));
  float_mul := fun x y => Q_of_float (SFmul 53 1024 (float_of_Q x) (float_of_Q y));
  float_sub := fun x y => Q_of_float (SFsub 53 1024 (float_of_Q x) (float_of_Q y));
  float_round2 := fun x => double (round2 (double x))
|}.

(** [math.copysign(1, f)] and [f > 0] on a float given with its sign bit
    (a NaN carries none here and counts as positive). *)
Definition float_copysign1 (f : spec_float) : Q :=
  match f with
  | S754_zero s | S754_infinity s | S754_finite s _ _ => if s then -(1) else 1
  | S754_nan => 1
  end.

Definition float_gt0 (f : spec_float) : bool := SFltb (S754_zero false) f.

(** ** Assets

    [zipline.assets] is outside the files at hand.  The ledger needs of an
    asset: comparison with [==]/[!=], its [tick_size], and whether it is a
    [Future], in which case it has a [price_multiplier].  The tick
    quantizer [asymmetric_round_price(price, prefer_round_down, tick_size)]
    of [zipline.finance.execution] is taken as given as well. *)

Class AssetEnv : Type := {
  Asset : Type;
  asset_eqb : Asset -> Asset -> bool;
  tick_size : Asset -> Q;
  (* [Some m] exactly when [isinstance(asset, Future)], [m] its multiplier *)
  price_multiplier : Asset -> option Q;
  asymmetric_round_price : Q -> bool -> Q -> Q
}.

Section Ledger.
Context {E : AssetEnv} {F : FloatArith}.

(** ** Data model *)

(** [zp.InnerPosition], reached through [Position.__getattr__] and
    [__setattr__].  Times are integers (any totally ordered clock). *)
Record Position : Type := mkPosition {
  asset : Asset;
  amount : Q;
  cost_basis : Q;
  last_sale_price : Q;
  last_sale_date : option Z;
  take_profit_price : Q;
  stop_loss_price : Q
}.

(** [Position(asset)] with the constructor's defaults. *)
Definition new_position (a : Asset) : Position :=
  mkPosition a 0 0 0 None 0 0.

(** [Transaction] of [transaction.py]. *)
Record Transaction : Type := mkTransaction {
  txn_asset : Asset;
  txn_amount : Q;
  txn_dt : Z;
  txn_price : Q;
  txn_order_id : Z;
  txn_take_profit_price : option Q;
  txn_stop_loss_price : option Q
}.

(** Cash and stock dividends: the fields the ledger reads, and the asset
    the action is tagged to. *)
Record Dividend : Type := mkDividend {
  dividend_asset : Asset;
  dividend_amount : Q
}.

Record StockDividend : Type := mkStockDividend {
  stock_dividend_asset : Asset;
  payment_asset : Asset;
  stock_dividend_ratio : Q
}.

(** ** Methods as state transformers *)

Definition M (A : Type) : Type := Position -> result A * Position.

Definition ret {A} (a : A) : M A := fun self => (Ok a, self).

Definition raise {A} (e : exn) : M A := fun self => (Raise e, self).

Definition bind {A B} (c : M A) (k : A -> M B) : M B :=
  fun self =>
    match c self with
    | (Ok a, self') => k a self'
    | (Raise e, self') => (Raise e, self')
    end.

Definition get : M Position := fun self => (Ok self, self).

Definition lift {A} (r : result A) : M A := fun self => (r, self).

Notation "x <- c ;; k" := (bind c (fun x => k))
  (at level 61, c at next level, right associativity).
Notation "c ;; k" := (bind c (fun _ => k))
  (at level 61, right associativity).

(** [self.<field> = v] *)
Definition set_amount (v : Q) : M unit := fun self =>
  (Ok tt, mkPosition (asset self) v (cost_basis self) (last_sale_price self)
            (last_sale_date self) (take_profit_price self) (stop_loss_price self)).

Definition set_cost_basis (v : Q) : M unit := fun self =>
  (Ok tt, mkPosition (asset self) (amount self) v (last_sale_price self)
            (last_sale_date self) (take_profit_price self) (stop_loss_price self)).

Definition set_last_sale_price (v : Q) : M unit := fun self =>
  (Ok tt, mkPosition (asset self) (amount self) (cost_basis self) v
            (last_sale_date self) (take_profit_price self) (stop_loss_price self)).

Definition set_last_sale_date (v : option Z) : M unit := fun self =>
  (Ok tt, mkPosition (asset self) (amount self) (cost_basis self)
            (last_sale_price self) v (take_profit_price self) (stop_loss_price self)).

Definition set_take_profit_price (v : Q) : M unit := fun self =>
  (Ok tt, mkPosition (asset self) (amount self) (cost_basis self)
            (last_sale_price self) (last_sale_date self) v (stop_loss_price self)).

Definition set_stop_loss_price (v : Q) : M unit := fun self =>
  (Ok tt, mkPosition (asset self) (amount self) (cost_basis self)
            (last_sale_price self) (last_sale_date self) (take_profit_price self) v).

(** [if b: body] with no [else]. *)
Definition when (b : bool) (body : M unit) : M unit :=
  if b then body else ret tt.

(** *** [Position.earn_dividend] *)
Definition earn_dividend (dividend : Dividend) : M Q :=
  self <- get ;;
  ret (amount self * dividend_amount dividend).

(** *** [Position.earn_stock_dividend]: the pair is the returned dict
    ([payment_asset], [share_count]). *)
Definition earn_stock_dividend (stock_dividend : StockDividend) : M (Asset * Q) :=
  self <- get ;;
  ret (payment_asset stock_dividend,
       np_floor (amount self * stock_dividend_ratio stock_dividend)).

(** *** [Position.handle_split] (the two [log.info] calls write a log
    line and are left out) *)
Definition handle_split (asset' : Asset) (ratio : Q) : M Q :=
  self <- get ;;
  if negb (asset_eqb (asset self) asset') then
    raise (Exception "updating split with the wrong asset!")
  else
    raw_share_count <- lift (float_truediv (amount self) ratio) ;;
    let full_share_count := np_floor raw_share_count in
    let fractional_share_count := float_sub raw_share_count full_share_count in
    let new_cost_basis := float_round2 (float_mul (cost_basis self) ratio) in
    set_cost_basis new_cost_basis ;;
    set_amount full_share_count ;;
    let return_cash :=
      float_round2 (float_mul fractional_share_count new_cost_basis) in
    self <- get ;;
    when (negb (Qeq_bool (take_profit_price self) 0))
         (set_take_profit_price
            (float_round2 (float_mul (take_profit_price self) ratio))) ;;
    self <- get ;;
    when (negb (Qeq_bool (stop_loss_price self) 0))
         (set_stop_loss_price
            (float_round2 (float_mul (stop_loss_price self) ratio))) ;;
    ret return_cash.

(** *** [Position.update_exit_prices] *)

(** [copysign(1, amount)], the direction the ordering checks use. *)
Definition resulting_direction (amount' : Q) : Q := copysign1 amount'.

(** The [prefer_round_down] flag handed to the tick quantizer:
    [not amount > 0] for the take-profit, [amount > 0] for the stop-loss. *)
Definition take_profit_round_down (amount' : Q) : bool := negb (Qlt_bool 0 amount').
Definition stop_loss_round_down (amount' : Q) : bool := Qlt_bool 0 amount'.

Definition update_exit_prices
    (take_profit_price' stop_loss_price' amount' last_sale_price' : option Q) : M unit :=
  self <- get ;;
  let amount' := match amount' with None => amount self | Some a => a end in
  let resulting_direction := resulting_direction amount' in
  match take_profit_price' with
  | Some tp =>
      self <- get ;;
      if negb (Qeq_bool (take_profit_price self) 0)
         && match last_sale_price' with
            | Some lsp => Qlt_bool (resulting_direction * tp) (resulting_direction * lsp)
            | None => false
            end
      then raise ValueError
      else set_take_profit_price
             (asymmetric_round_price tp (take_profit_round_down amount')
                                     (tick_size (asset self)))
  | None => ret tt
  end ;;
  match stop_loss_price' with
  | Some sl =>
      self <- get ;;
      if negb (Qeq_bool (stop_loss_price self) 0)
         && match last_sale_price' with
            | Some lsp => Qlt_bool (resulting_direction * lsp) (resulting_direction * sl)
            | None => false
            end
      then raise ValueError
      else set_stop_loss_price
             (asymmetric_round_price sl (stop_loss_round_down amount')
                                     (tick_size (asset self)))
  | None => ret tt
  end.

(** [Position.update_exit_prices] once more, for a call whose [amount]
    argument is a float, given with its sign bit: the code reads the sign
    of [amount] with [copysign], which tells [-0.0] from [0.0], and a
    rational cannot.  The two readings agree on every float that denotes
    a rational other than [-0.0] ([update_exit_prices_float_agrees]). *)
Definition update_exit_prices_float
    (take_profit_price' stop_loss_price' : option Q) (amount' : spec_float)
    (last_sale_price' : option Q) : M unit :=
  let resulting_direction := float_copysign1 amount' in
  match take_profit_price' with
  | Some tp =>
      self <- get ;;
      if negb (Qeq_bool (take_profit_price self) 0)
         && match last_sale_price' with
            | Some lsp => Qlt_bool (resulting_direction * tp) (resulting_direction * lsp)
            | None => false
            end
      then raise ValueError
      else set_take_profit_price
             (asymmetric_round_price tp (negb (float_gt0 amount'))
                                     (tick_size (asset self)))
  | None => ret tt
  end ;;
  match stop_loss_price' with
  | Some sl =>
      self <- get ;;
      if negb (Qeq_bool (stop_loss_price self) 0)
         && match last_sale_price' with
            | Some lsp => Qlt_bool (resulting_direction * lsp) (resulting_direction * sl)
            | None => false
            end
      then raise ValueError
      else set_stop_loss_price
             (asymmetric_round_price sl (float_gt0 amount')
                                     (tick_size (asset self)))
  | None => ret tt
  end.

(** *** [Position.update] *)
Definition update (txn : Transaction) : M unit :=
  self <- get ;;
  if negb (asset_eqb (asset self) (txn_asset txn)) then
    raise (Exception "updating position with txn for a different asset")
  else
    let total_shares := amount self + txn_amount txn in
    (if Qlt_bool (Qabs total_shares) (1 # 1000) then
       set_cost_basis 0 ;;
       set_take_profit_price 0 ;;
       set_stop_loss_price 0
     else
       let prev_direction := copysign1 (amount self) in
       let txn_direction := copysign1 (txn_amount txn) in
       (if negb (Qeq_bool prev_direction txn_direction) then
          when (Qlt_bool (Qabs (amount self)) (Qabs (txn_amount txn)))
               (set_cost_basis (txn_price txn))
        else
          let prev_cost := cost_basis self * amount self in
          let txn_cost := txn_amount txn * txn_price txn in
          let total_cost := prev_cost + txn_cost in
          new_cost_basis <- lift (truediv total_cost total_shares) ;;
          set_cost_basis new_cost_basis) ;;
       self <- get ;;
       when (match last_sale_date self with
             | None => true
             | Some d => (d <? txn_dt txn)%Z
             end)
            (set_last_sale_price (txn_price txn) ;;
             set_last_sale_date (Some (txn_dt txn))) ;;
       self <- get ;;
       update_exit_prices (txn_take_profit_price txn) (txn_stop_loss_price txn)
                          (Some total_shares) (Some (last_sale_price self))) ;;
    set_amount total_shares.

(** *** [Position.adjust_commission_cost_basis] *)
Definition adjust_commission_cost_basis (asset' : Asset) (cost : Q) : M unit :=
  self <- get ;;
  if negb (asset_eqb asset' (asset self)) then
    raise (Exception "Updating a commission for a different asset?")
  else if Qeq_bool cost 0 then ret tt
  else if Qeq_bool (amount self) 0 then ret tt
  else
    let prev_cost := cost_basis self * amount self in
    cost_to_use <- match price_multiplier asset' with
                   | Some m => lift (truediv cost m)
                   | None => ret cost
                   end ;;
    let new_cost := prev_cost + cost_to_use in
    new_cost_basis <- lift (truediv new_cost (amount self)) ;;
    set_cost_basis new_cost_basis.

(** *** Callers

    [update_all] is the loop that feeds fills to a position; [call] is the
    position's interface taken as a whole, one constructor per method that
    the broker side invokes. *)

(** A stream of fills applied in order ([for txn in txns: position.update(txn)]);
    the first exception ends it. *)
Fixpoint update_all (txns : list Transaction) : M unit :=
  match txns with
  | [] => ret tt
  | txn :: rest => update txn ;; update_all rest
  end.

Inductive LedgerCall : Type :=
| CallUpdate (txn : Transaction)
| CallHandleSplit (asset' : Asset) (ratio : Q)
| CallEarnDividend (dividend : Dividend)
| CallEarnStockDividend (stock_dividend : StockDividend)
| CallAdjustCommission (asset' : Asset) (cost : Q)
| CallUpdateExitPrices (take_profit_price' stop_loss_price' amount' last_sale_price' : option Q).

(** What a call hands back: [None], the split's cash, or one of the two
    dividend dicts. *)
Inductive Returned : Type :=
| RetNone
| RetCash (return_cash : Q)
| RetDividend (amount' : Q)
| RetStockDividend (payment_asset' : Asset) (share_count : Q).

Definition call (c : LedgerCall) : M Returned :=
  match c with
  | CallUpdate txn => update txn ;; ret RetNone
  | CallHandleSplit a ratio => cash <- handle_split a ratio ;; ret (RetCash cash)
  | CallEarnDividend d => x <- earn_dividend d ;; ret (RetDividend x)
  | CallEarnStockDividend sd =>
      x <- earn_stock_dividend sd ;; ret (RetStockDividend (fst x) (snd x))
  | CallAdjustCommission a cost => adjust_commission_cost_basis a cost ;; ret RetNone
  | CallUpdateExitPrices tp sl a l => update_exit_prices tp sl a l ;; ret RetNone
  end.

(** *** [Position.get_exit_orders]

    [zipline.finance.order.Order] is outside the files at hand: an exit
    order is kept as the call that constructs it,
    [Order(dt, asset, amount, stop=..., limit=...)]. *)
Record NewOrder : Type := mkNewOrder {
  order_dt : option Z;
  order_asset : Asset;
  order_amount : Q;
  order_stop : option Q;
  order_limit : option Q
}.

(** [x or None] on a number: [None] when [x] is zero. *)
Definition or_None (x : Q) : option Q :=
  if Qeq_bool x 0 then None else Some x.

Definition get_exit_orders : M (list NewOrder) :=
  self <- get ;;
  let exit_orders := [] in
  let exit_orders :=
    if negb (Qeq_bool (stop_loss_price self) 0) then
      exit_orders ++ [mkNewOrder (last_sale_date self) (asset self) (- amount self)
                        (or_None (stop_loss_price self)) None]
    else exit_orders in
  let exit_orders :=
    if negb (Qeq_bool (take_profit_price self) 0) then
      exit_orders ++ [mkNewOrder (last_sale_date self) (asset self) (- amount self)
                        None (or_None (take_profit_price self))]
    else exit_orders in
  ret exit_orders.

(** *** Dicts

    The values the two [to_dict] methods store, and a [dict] as the list
    of its items in insertion order, with at most one item per key. *)
Inductive pyval : Type :=
| VNone
| VNum (q : Q)
| VTime (t : Z)
| VId (i : Z)
| VAsset (a : Asset)
| VTransactionType.          (* DATASOURCE_TYPE.TRANSACTION *)

Definition pydict : Type := list (string * pyval).

(** [d[k]]; [None] stands for [KeyError]. *)
Fixpoint dict_get (k : string) (d : pydict) : option pyval :=
  match d with
  | [] => None
  | (k', v) :: rest => if String.eqb k k' then Some v else dict_get k rest
  end.

(** [del d[k]]; [None] stands for [KeyError]. *)
Definition dict_del (k : string) (d : pydict) : option pydict :=
  match dict_get k d with
  | None => None
  | Some _ => Some (filter (fun item => negb (String.eqb k (fst item))) d)
  end.

(** [d[k] = v]: the item is replaced where it stands, or added last. *)
Fixpoint dict_set (k : string) (v : pyval) (d : pydict) : pydict :=
  match d with
  | [] => [(k, v)]
  | (k', v') :: rest =>
      if String.eqb k k' then (k, v) :: rest else (k', v') :: dict_set k v rest
  end.

(** An optional price as a value. *)
Definition VOptNum (x : option Q) : pyval :=
  match x with
  | None => VNone
  | Some q => VNum q
  end.


(** *** [Transaction]: the instance's [__dict__] as [__init__] fills it,
    [__getitem__] and [to_dict] *)
Definition Transaction_dict (txn : Transaction) : pydict :=
  [("asset"%string, VAsset (txn_asset txn));
   ("amount"%string, VNum (txn_amount txn));
   ("dt"%string, VTime (txn_dt txn));
   ("price"%string, VNum (txn_price txn));
   ("order_id"%string, VId (txn_order_id txn));
   ("type"%string, VTransactionType);
   ("take_profit_price"%string, VOptNum (txn_take_profit_price txn));
   ("stop_loss_price"%string, VOptNum (txn_stop_loss_price txn))].

Definition Transaction_getitem (txn : Transaction) (name : string) : option pyval :=
  dict_get name (Transaction_dict txn).

Definition Transaction_to_dict (txn : Transaction) : option pydict :=
  let py := Transaction_dict txn in          (* copy(self.__dict__) *)
  match dict_del "type" py with
  | None => None
  | Some py =>
      match dict_del "asset" py with
      | None => None
      | Some py =>
          let py := dict_set "sid" (VAsset (txn_asset txn)) py in
          let py := dict_set "commission" VNone py in
          Some py
      end
  end.

(** *** [create_transaction]: the attributes it reads from its order *)
Record Order : Type := mkOrder {
  asset_of_order : Asset;
  order_id : Z;
  exit_take_profit_price : option Q;
  exit_stop_loss_price : option Q
}.

Definition create_transaction (order : Order) (dt : Z) (price amount' : Q) : Transaction :=
  mkTransaction (asset_of_order order) amount' dt price (order_id order)
    (exit_take_profit_price order) (exit_stop_loss_price order).

(** ** Vocabulary of the statements

    Positions and conditions the theorems below refer to; none of them is
    part of the code. *)

(** [self.last_sale_date is None or txn.dt > self.last_sale_date], read on
    the position before the merge. *)
Definition txn_is_later (txn : Transaction) (p : Position) : bool :=
  match last_sale_date p with
  | None => true
  | Some d => (d <? txn_dt txn)%Z
  end.

(** The cost basis [update] assigns when the total is not flat. *)
Definition merged_cost_basis (p : Position) (txn : Transaction) : Q :=
  if Qeq_bool (copysign1 (amount p)) (copysign1 (txn_amount txn)) then
    (cost_basis p * amount p + txn_amount txn * txn_price txn)
    / (amount p + txn_amount txn)
  else if Qlt_bool (Qabs (amount p)) (Qabs (txn_amount txn)) then txn_price txn
  else cost_basis p.

(** The position at the point where [update] hands the transaction's exit
    prices to [update_exit_prices]: cost basis and last sale are assigned,
    [amount] is not yet. *)
Definition before_exit_prices (p : Position) (txn : Transaction) : Position :=
  mkPosition (asset p) (amount p) (merged_cost_basis p txn)
    (if txn_is_later txn p then txn_price txn else last_sale_price p)
    (if txn_is_later txn p then Some (txn_dt txn) else last_sale_date p)
    (take_profit_price p) (stop_loss_price p).

(** The sum of the fills of a stream. *)
Definition total_amount (txns : list Transaction) : Q :=
  fold_right (fun txn acc => txn_amount txn + acc) 0 txns.

(** The position a closing fill leaves. *)
Definition flattened (p : Position) (total : Q) : Position :=
  mkPosition (asset p) total 0 (last_sale_price p) (last_sale_date p) 0 0.

(** Agreement on every field but [take_profit_price]. *)
Definition same_except_take_profit (p q : Position) : Prop :=
  asset p = asset q /\ amount p = amount q /\ cost_basis p = cost_basis q /\
  last_sale_price p = last_sale_price q /\ last_sale_date p = last_sale_date q /\
  stop_loss_price p = stop_loss_price q.


(** [self.take_profit_price = v] and [self.stop_loss_price = v], as values. *)
Definition with_take_profit (p : Position) (v : Q) : Position :=
  mkPosition (asset p) (amount p) (cost_basis p) (last_sale_price p)
    (last_sale_date p) v (stop_loss_price p).

Definition with_stop_loss (p : Position) (v : Q) : Position :=
  mkPosition (asset p) (amount p) (cost_basis p) (last_sale_price p)
    (last_sale_date p) (take_profit_price p) v.

(** [self.cost_basis = v], as a value. *)
Definition with_cost_basis (p : Position) (v : Q) : Position :=
  mkPosition (asset p) (amount p) v (last_sale_price p)
    (last_sale_date p) (take_profit_price p) (stop_loss_price p).

(** The amount [update_exit_prices] works with: the argument, or the
    position's own when none is given. *)
Definition effective_amount (p : Position) (amount' : option Q) : Q :=
  match amount' with
  | None => amount p
  | Some a => a
  end.

(** [take_profit_price] is as in [p], or holds the quantized take-profit
    that was asked for. *)
Definition take_profit_kept_or_stored
    (p p' : Position) (take_profit_price' amount' : option Q) : Prop :=
  take_profit_price p' = take_profit_price p \/
  exists tp : Q,
    take_profit_price' = Some tp /\
    take_profit_price p' =
      asymmetric_round_price tp (take_profit_round_down (effective_amount p amount'))
                             (tick_size (asset p)).

(** [a] is no later than [b]; an unset date is earlier than any other. *)
Definition date_le (a b : option Z) : Prop :=
  match a, b with
  | None, _ => True
  | Some _, None => False
  | Some x, Some y => (x <= y)%Z
  end.

End Ledger.

Notation "x <- c ;; k" := (bind c (fun x => k))
  (at level 61, c at next level, right associativity).
Notation "c ;; k" := (bind c (fun _ => k))
  (at level 61, right associativity).

(** * Order rounding ([rounding.py]) *)

(** Modelled from the spec: [round_if_near_integer] of
    [zipline.utils.math_utils], which is not among the files at hand.  It
    "corrects floating-point noise near an integer": a value within
    [epsilon] of the nearest integer becomes that integer, and any other
    value is returned as it is.  The tolerance [epsilon] is left open. *)
Definition round_if_near_integer (epsilon a : Q) : Q :=
  if Qle_bool (Qabs (a - inject_Z (py_round a))) epsilon
  then inject_Z (py_round a)
  else a.

(** The two implementations of [OrderRounding]; the fractional one holds
    its [_precision]. *)
Inductive OrderRounding : Type :=
| FullSharesRounding
| FractionalSharesRounding (precision : Q).

(** [FractionalSharesRounding()] with the default precision [.01]. *)
Definition FractionalSharesRounding_default : OrderRounding :=
  FractionalSharesRounding (1 # 100).

(** [round_order] of the two classes.  [amount / self._precision] and
    [int(...) * self._precision] are float operations; the [int] result of
    the whole-share rounding is exact. *)
Definition round_order {F : FloatArith}
    (epsilon : Q) (self : OrderRounding) (amount' : Q) : result Q :=
  match self with
  | FullSharesRounding =>
      Ok (inject_Z (py_int (round_if_near_integer epsilon amount')))
  | FractionalSharesRounding precision =>
      result_bind (float_truediv amount' precision) (fun x =>
      Ok (float_mul (inject_Z (py_int (round_if_near_integer epsilon x))) precision))
  end.

(** The whole number of steps a quantity is taken to by the fractional
    rounding: [int(round_if_near_integer(amount / precision))]. *)
Definition steps {F : FloatArith} (epsilon precision amount' : Q) : Z :=
  py_int (round_if_near_integer epsilon (float_div amount' precision)).

(** * Concrete runs *)

(** A small market.  Assets are numbered and compared by number; asset 7
    is a [Future] with price multiplier 5; the tick is 0.01.  The prices
    used below are multiples of the tick, which the quantizer returns as
    they are. *)
Definition demo_env : AssetEnv := {|
  Asset := Z;
  asset_eqb := Z.eqb;
  tick_size := fun _ => 1 # 100;
  price_multiplier := fun a => if (a =? 7)%Z then Some 5 else None;
  asymmetric_round_price := fun price _ _ => price
|}.

Definition demo_position : Type := @Position demo_env.
Definition demo_transaction : Type := @Transaction demo_env.

(** Long 100 @ 10.00, last sale at time 1, take-profit at 12.00. *)
Definition long_100 : demo_position :=
  mkPosition (1%Z : @Asset demo_env) 100 10 10 (Some 1%Z) 12 0.

(** Buy 50 @ 13.00 at time 2, no exit prices. *)
Definition buy_50 : demo_transaction :=
  mkTransaction (1%Z : @Asset demo_env) 50 2 13 1 None None.

(** Buy 50 @ 13.00 at time 2, asking for a take-profit of 11.00. *)
Definition buy_50_tp_11 : demo_transaction :=
  mkTransaction (1%Z : @Asset demo_env) 50 2 13 1 (Some 11) None.


(** Sell 150 @ 20.00 and sell 40 @ 20.00 at time 2. *)
Definition sell_150 : demo_transaction :=
  mkTransaction (1%Z : @Asset demo_env) (-150) 2 20 2 None None.
Definition sell_40 : demo_transaction :=
  mkTransaction (1%Z : @Asset demo_env) (-40) 2 20 2 None None.

(** Buy 100 @ 10.00 at time 1. *)
Definition buy_100 : demo_transaction :=
  mkTransaction (1%Z : @Asset demo_env) 100 1 10 0 None None.

(** Long 10, last sale 100.00, no exit price set; the same with both set. *)
Definition long_no_exits : demo_position :=
  mkPosition (1%Z : @Asset demo_env) 10 90 100 (Some 1%Z) 0 0.
Definition long_with_exits : demo_position :=
  mkPosition (1%Z : @Asset demo_env) 10 90 100 (Some 1%Z) 120 80.

(** Long 100 with cost basis 30.00 (for the split), long 50 @ 20.00 in an
    equity and in the future (for the commission), a flat position. *)
Definition long_100_at_30 : demo_position :=
  mkPosition (1%Z : @Asset demo_env) 100 30 30 (Some 1%Z) 0 0.
Definition long_50_at_20 : demo_position :=
  mkPosition (1%Z : @Asset demo_env) 50 20 20 (Some 1%Z) 0 0.
Definition long_50_future : demo_position :=
  mkPosition (7%Z : @Asset demo_env) 50 20 20 (Some 1%Z) 0 0.
Definition flat_with_exits : demo_position :=
  mkPosition (1%Z : @Asset demo_env) 0 0 100 (Some 1%Z) 120 80.

(** Positions held in doubles: [double 0.3] is the float that the literal
    [0.3] denotes.  0.3 of a share with cost basis 50.00, and long 100 with
    cost basis 5.35. *)
Definition long_0_3_at_50 : demo_position :=
  mkPosition (1%Z : @Asset demo_env) (double 0.3) 50 50 (Some 1%Z) 0 0.
Definition long_100_at_5_35 : demo_position :=
  mkPosition (1%Z : @Asset demo_env) 100 (double 5.35) (double 5.35) (Some 1%Z) 0 0.

(** [FractionalSharesRounding(precision=1e-8)]. *)
Definition FractionalSharesRounding_1e8 : OrderRounding :=
  FractionalSharesRounding (double 0.00000001).


(** An order for asset 1 with a take-profit of 120.00 and a stop-loss of
    80.00. *)
Definition order_with_exits : @Order demo_env :=
  mkOrder (1%Z : @Asset demo_env) 9 (Some 120) (Some 80).

Ltac q_decide :=
  vm_compute; first [reflexivity | discriminate | intro; discriminate].

(** * Properties *)

(** ** Comparisons *)

Lemma Qlt_bool_iff (x y : Q) : Qlt_bool x y = true <-> x < y.
Proof.
  unfold Qlt_bool. rewrite negb_true_iff. split; intro H.
  - apply Qnot_le_lt. intro Hle. apply Qle_bool_iff in Hle. congruence.
  - destruct (Qle_bool y x) eqn:Hb; [|reflexivity].
    apply Qle_bool_iff in Hb. exfalso. exact (Qlt_not_le _ _ H Hb).
Qed.

Lemma Qlt_bool_false_iff (x y : Q) : Qlt_bool x y = false <-> y <= x.
Proof.
  unfold Qlt_bool. rewrite negb_false_iff. apply Qle_bool_iff.
Qed.

Lemma Qeq_bool_false_iff (x y : Q) : Qeq_bool x y = false <-> ~ x == y.
Proof.
  split.
  - apply Qeq_bool_neq.
  - intro H. destruct (Qeq_bool x y) eqn:Hb; [|reflexivity].
    apply Qeq_bool_iff in Hb. contradiction.
Qed.

#[export] Instance Qlt_bool_comp : Proper (Qeq ==> Qeq ==> eq) Qlt_bool.
Proof.
  intros x x' Hx y y' Hy.
  destruct (Qlt_bool x y) eqn:H1, (Qlt_bool x' y') eqn:H2; try reflexivity.
  - apply Qlt_bool_iff in H1. apply Qlt_bool_false_iff in H2.
    rewrite Hx, Hy in H1. exfalso. exact (Qlt_not_le _ _ H1 H2).
  - apply Qlt_bool_iff in H2. apply Qlt_bool_false_iff in H1.
    rewrite <- Hx, <- Hy in H2. exfalso. exact (Qlt_not_le _ _ H2 H1).
Qed.

Lemma copysign1_pos (x : Q) : 0 < x -> copysign1 x = 1.
Proof.
  intro H. unfold copysign1.
  replace (Qlt_bool x 0) with false; [reflexivity|].
  symmetry. apply Qlt_bool_false_iff. now apply Qlt_le_weak.
Qed.


Lemma copysign1_neg (x : Q) : x < 0 -> copysign1 x = -(1).
Proof.
  intro H. unfold copysign1.
  replace (Qlt_bool x 0) with true; [reflexivity|].
  symmetry. now apply Qlt_bool_iff.
Qed.

Lemma copysign1_zero (x : Q) : x == 0 -> copysign1 x = 1.
Proof.
  intro H. unfold copysign1. rewrite H. reflexivity.
Qed.

Lemma sign_cases (x : Q) :
  (x < 0 /\ copysign1 x = -(1) /\ sign x = -(1)) \/
  (x == 0 /\ copysign1 x = 1 /\ sign x = 0) \/
  (0 < x /\ copysign1 x = 1 /\ sign x = 1).
Proof.
  unfold copysign1, sign.
  destruct (Qlt_bool x 0) eqn:Hn.
  - left. apply Qlt_bool_iff in Hn. auto.
  - right. apply Qlt_bool_false_iff in Hn.
    destruct (Qlt_bool 0 x) eqn:Hp.
    + right. apply Qlt_bool_iff in Hp. auto.
    + left. apply Qlt_bool_false_iff in Hp.
      split; [now apply Qle_antisym | auto].
Qed.

Lemma Qabs_zero_le (x y : Q) : y == 0 -> Qabs x <= Qabs y -> x == 0.
Proof.
  intros Hy H. rewrite Hy in H. simpl in H.
  apply Qabs_Qle_condition in H. destruct H as [H1 H2].
  now apply Qle_antisym.
Qed.

Lemma not_flat_nonzero (x : Q) : 1 # 1000 <= Qabs x -> Qeq_bool x 0 = false.
Proof.
  intro H. apply Qeq_bool_false_iff. intro Hx.
  rewrite Hx in H. simpl in H. revert H. apply Qlt_not_le. reflexivity.
Qed.

Section LedgerFacts.
Context {E : AssetEnv} {F : FloatArith}.

(** ** Frame of [update_exit_prices]: whatever the outcome, it assigns
    nothing but the two exit prices. *)
Lemma update_exit_prices_frame tp sl a l (p p' : Position) (r : result unit) :
  update_exit_prices tp sl a l p = (r, p') ->
  asset p' = asset p /\ amount p' = amount p /\ cost_basis p' = cost_basis p /\
  last_sale_price p' = last_sale_price p /\ last_sale_date p' = last_sale_date p.
Proof.
  unfold update_exit_prices, bind, get, ret, raise, set_take_profit_price,
    set_stop_loss_price.
  intro H.
  repeat match type of H with
         | context [match ?o with Some _ => _ | None => _ end] => destruct o
         | context [if ?b then _ else _] => destruct b
         end;
    simpl in H; inversion H; subst; simpl; auto.
Qed.

(** ** [update] when the asset matches and the total is not flat

    The cost basis, then the last sale, are assigned before the exit
    prices are validated; [amount] is assigned last, and only when the
    validation did not raise. *)

Lemma update_not_flat (p : Position) (txn : Transaction) :
  asset_eqb (asset p) (txn_asset txn) = true ->
  1 # 1000 <= Qabs (amount p + txn_amount txn) ->
  update txn p =
    match update_exit_prices (txn_take_profit_price txn) (txn_stop_loss_price txn)
            (Some (amount p + txn_amount txn))
            (Some (last_sale_price (before_exit_prices p txn)))
            (before_exit_prices p txn) with
    | (Ok _, p3) => set_amount (amount p + txn_amount txn) p3
    | (Raise e, p3) => (Raise e, p3)
    end.
Proof.
  intros Ha Ht.
  assert (Hflat : Qlt_bool (Qabs (amount p + txn_amount txn)) (1 # 1000) = false)
    by now apply Qlt_bool_false_iff.
  pose proof (not_flat_nonzero _ Ht) as Hnz.
  unfold update. unfold bind at 1. unfold get at 1. cbv beta iota.
  rewrite Ha. cbn [negb]. rewrite Hflat.
  unfold before_exit_prices, merged_cost_basis, txn_is_later.
  destruct p as [a am cb lsp lsd tp sl]; cbn [asset amount cost_basis
    last_sale_price last_sale_date take_profit_price stop_loss_price] in *.
  unfold bind, get, when, lift, truediv, ret, set_cost_basis, set_last_sale_price,
    set_last_sale_date.
  cbn [asset amount cost_basis last_sale_price last_sale_date take_profit_price
       stop_loss_price].
  rewrite Hnz.
  destruct (Qeq_bool (copysign1 am) (copysign1 (txn_amount txn))); cbn [negb];
    [| destruct (Qlt_bool (Qabs am) (Qabs (txn_amount txn)))];
    cbn [asset amount cost_basis last_sale_price last_sale_date take_profit_price
         stop_loss_price];
    (destruct lsd as [d|]; [destruct (d <? txn_dt txn)%Z|]);
    cbn [asset amount cost_basis last_sale_price last_sale_date take_profit_price
         stop_loss_price]; reflexivity.
Qed.

(** The cost basis after [update], whether or not the exit-price
    validation raised. *)
Lemma update_cost_basis_merged (p p' : Position) (txn : Transaction) (r : result unit) :
  asset_eqb (asset p) (txn_asset txn) = true ->
  1 # 1000 <= Qabs (amount p + txn_amount txn) ->
  update txn p = (r, p') ->
  cost_basis p' = merged_cost_basis p txn.
Proof.
  intros Ha Ht H. rewrite (update_not_flat p txn Ha Ht) in H.
  destruct (update_exit_prices _ _ _ _ _) as [[u|e] p3] eqn:Hx;
    apply update_exit_prices_frame in Hx; destruct Hx as (_ & _ & Hcb & _).
  - unfold set_amount in H. inversion H; subst. simpl. exact Hcb.
  - inversion H; subst. exact Hcb.
Qed.

Lemma merged_cost_basis_cases (p : Position) (txn : Transaction) :
  (copysign1 (amount p) == copysign1 (txn_amount txn) ->
   merged_cost_basis p txn =
     (cost_basis p * amount p + txn_amount txn * txn_price txn)
     / (amount p + txn_amount txn)) /\
  (~ copysign1 (amount p) == copysign1 (txn_amount txn) ->
   Qabs (amount p) < Qabs (txn_amount txn) ->
   merged_cost_basis p txn = txn_price txn) /\
  (~ copysign1 (amount p) == copysign1 (txn_amount txn) ->
   Qabs (txn_amount txn) <= Qabs (amount p) ->
   merged_cost_basis p txn = cost_basis p).
Proof.
  unfold merged_cost_basis.
  destruct (Qeq_bool (copysign1 (amount p)) (copysign1 (txn_amount txn))) eqn:Hs.
  - apply Qeq_bool_iff in Hs. split; [|split]; intros; try contradiction.
    reflexivity.
  - apply Qeq_bool_false_iff in Hs.
    destruct (Qlt_bool (Qabs (amount p)) (Qabs (txn_amount txn))) eqn:Hlt.
    + apply Qlt_bool_iff in Hlt. split; [|split]; intros; try contradiction.
      * reflexivity.
      * exfalso. eapply Qlt_not_le; eassumption.
    + apply Qlt_bool_false_iff in Hlt. split; [|split]; intros; try contradiction.
      * exfalso. eapply Qlt_not_le; eassumption.
      * reflexivity.
Qed.

(** C1. For a position and a transaction on the same asset whose total
    [amount + txn.amount] has magnitude at least 1e-3, [update] leaves the
    cost basis as follows, with the sign of a quantity read as
    [copysign(1, .)]: equal signs give the size-weighted average
    [(cost_basis * amount + txn.amount * txn.price) / total]; different
    signs and [|txn.amount| > |amount|] give [txn.price]; different signs
    and [|txn.amount| <= |amount|] leave it unchanged. *)
Theorem update_cost_basis (p p' : Position) (txn : Transaction) (r : result unit) :
  asset_eqb (asset p) (txn_asset txn) = true ->
  1 # 1000 <= Qabs (amount p + txn_amount txn) ->
  update txn p = (r, p') ->
  (copysign1 (amount p) == copysign1 (txn_amount txn) ->
   cost_basis p' =
     (cost_basis p * amount p + txn_amount txn * txn_price txn)
     / (amount p + txn_amount txn)) /\
  (~ copysign1 (amount p) == copysign1 (txn_amount txn) ->
   Qabs (amount p) < Qabs (txn_amount txn) ->
   cost_basis p' = txn_price txn) /\
  (~ copysign1 (amount p) == copysign1 (txn_amount txn) ->
   Qabs (txn_amount txn) <= Qabs (amount p) ->
   cost_basis p' = cost_basis p).
Proof.
  intros Ha Ht H.
  rewrite (update_cost_basis_merged p p' txn r Ha Ht H).
  apply merged_cost_basis_cases.
Qed.

(** C1 read with the three-valued [sign], up to numeric equality.  The two
    readings part only when one of the two amounts is zero, where the
    weighted average is [txn.price] (zero position) or the old cost basis
    (zero fill). *)
Lemma update_cost_basis_sign (p p' : Position) (txn : Transaction) (r : result unit) :
  asset_eqb (asset p) (txn_asset txn) = true ->
  1 # 1000 <= Qabs (amount p + txn_amount txn) ->
  update txn p = (r, p') ->
  (sign (amount p) == sign (txn_amount txn) ->
   cost_basis p' ==
     (cost_basis p * amount p + txn_amount txn * txn_price txn)
     / (amount p + txn_amount txn)) /\
  (~ sign (amount p) == sign (txn_amount txn) ->
   Qabs (amount p) < Qabs (txn_amount txn) ->
   cost_basis p' == txn_price txn) /\
  (~ sign (amount p) == sign (txn_amount txn) ->
   Qabs (txn_amount txn) <= Qabs (amount p) ->
   cost_basis p' == cost_basis p).
Proof.
  intros Ha Ht H.
  rewrite (update_cost_basis_merged p p' txn r Ha Ht H).
  destruct (merged_cost_basis_cases p txn) as (Hsame & Hrev & Hkeep).
  pose proof (not_flat_nonzero _ Ht) as Hnz. apply Qeq_bool_false_iff in Hnz.
  destruct (sign_cases (amount p)) as [(Ha0 & Hca & Hsa) | [(Ha0 & Hca & Hsa) | (Ha0 & Hca & Hsa)]];
    destruct (sign_cases (txn_amount txn))
      as [(Ht0 & Hct & Hst) | [(Ht0 & Hct & Hst) | (Ht0 & Hct & Hst)]];
    rewrite Hca, Hct in Hsame, Hrev, Hkeep; rewrite Hsa, Hst.
  - (* both negative *)
    split; [|split]; intros; [| exfalso; auto with qarith ..].
    rewrite Hsame; reflexivity.
  - (* short, zero fill *)
    split; [|split]; intros Hs; [discriminate Hs | |];
      intro Hc; [rewrite Hrev | rewrite Hkeep]; try reflexivity; try assumption;
      intro Hd; discriminate Hd.
  - (* short, buy *)
    split; [|split]; intros Hs; [discriminate Hs | |];
      intro Hc; [rewrite Hrev | rewrite Hkeep]; try reflexivity; try assumption;
      intro Hd; discriminate Hd.
  - (* flat, sell *)
    split; [|split]; intros Hs; [discriminate Hs | |];
      intro Hc; [rewrite Hrev | rewrite Hkeep]; try reflexivity; try assumption;
      intro Hd; discriminate Hd.
  - (* both zero: the total would be flat *)
    exfalso. apply Hnz. rewrite Ha0, Ht0. reflexivity.
  - (* flat, buy: the average is the fill price *)
    assert (Hn : ~ txn_amount txn == 0)
      by (intro Hz; rewrite Hz in Ht0; revert Ht0; apply Qlt_irrefl).
    split; [|split]; intros Hs; [discriminate Hs | |]; intro Hc.
    + rewrite Hsame by reflexivity. rewrite Ha0. now field.
    + exfalso. apply Hn. now apply (Qabs_zero_le _ (amount p)).
  - (* long, sell *)
    split; [|split]; intros Hs; [discriminate Hs | |];
      intro Hc; [rewrite Hrev | rewrite Hkeep]; try reflexivity; try assumption;
      intro Hd; discriminate Hd.
  - (* long, zero fill: the average is the old cost basis *)
    assert (Hn : ~ amount p == 0)
      by (intro Hz; rewrite Hz in Ha0; revert Ha0; apply Qlt_irrefl).
    split; [|split]; intros Hs; [discriminate Hs | |]; intro Hc.
    + exfalso. apply Hn. apply (Qabs_zero_le _ (txn_amount txn)); [assumption|].
      now apply Qlt_le_weak.
    + rewrite Hsame by reflexivity. rewrite Ht0. now field.
  - (* both positive *)
    split; [|split]; intros; [| exfalso; auto with qarith ..].
    rewrite Hsame; reflexivity.
Qed.

(** ** Flattening *)

Lemma update_flat (p : Position) (txn : Transaction) :
  asset_eqb (asset p) (txn_asset txn) = true ->
  Qabs (amount p + txn_amount txn) < 1 # 1000 ->
  update txn p = (Ok tt, flattened p (amount p + txn_amount txn)).
Proof.
  intros Ha Ht. apply Qlt_bool_iff in Ht.
  unfold update. unfold bind at 1. unfold get at 1. cbv beta iota.
  rewrite Ha. cbn [negb]. rewrite Ht. reflexivity.
Qed.

Lemma update_mismatch (p : Position) (txn : Transaction) :
  asset_eqb (asset p) (txn_asset txn) = false ->
  update txn p =
    (Raise (Exception "updating position with txn for a different asset"), p).
Proof.
  intro Ha. unfold update. unfold bind at 1. unfold get at 1. cbv beta iota.
  rewrite Ha. reflexivity.
Qed.

(** A merge that returns has added the fill to [amount] and kept the asset. *)
Lemma update_ok_amount (p p' : Position) (txn : Transaction) :
  update txn p = (Ok tt, p') ->
  asset p' = asset p /\ amount p' = amount p + txn_amount txn.
Proof.
  intro H.
  destruct (asset_eqb (asset p) (txn_asset txn)) eqn:Ha;
    [| rewrite (update_mismatch p txn Ha) in H; discriminate].
  destruct (Qlt_le_dec (Qabs (amount p + txn_amount txn)) (1 # 1000)) as [Ht|Ht].
  - rewrite (update_flat p txn Ha Ht) in H. inversion H; subst. simpl. auto.
  - rewrite (update_not_flat p txn Ha Ht) in H.
    destruct (update_exit_prices _ _ _ _ _) as [[u|e] p3] eqn:Hx; [|discriminate].
    apply update_exit_prices_frame in Hx. destruct Hx as (Has & _).
    unfold set_amount in H. inversion H; subst. simpl. auto.
Qed.

Lemma update_all_ok_amount (txns : list Transaction) :
  forall p p' : Position,
  update_all txns p = (Ok tt, p') ->
  asset p' = asset p /\ amount p' == amount p + total_amount txns.
Proof.
  induction txns as [|txn rest IH]; intros p p' H.
  - inversion H; subst. split; [reflexivity|]. simpl. ring.
  - simpl in H. unfold bind in H.
    destruct (update txn p) as [[[]|e] p1] eqn:H1; [|discriminate].
    apply update_ok_amount in H1. destruct H1 as [Ha1 Hm1].
    apply IH in H. destruct H as [Ha Hm].
    split; [congruence|]. rewrite Hm, Hm1. simpl. ring.
Qed.

Lemma total_amount_app (txns : list Transaction) (txn : Transaction) :
  total_amount (txns ++ [txn]) == total_amount txns + txn_amount txn.
Proof.
  induction txns as [|t rest IH]; simpl.
  - ring.
  - rewrite IH. ring.
Qed.

(** A stream with one more fill runs the stream, then merges the fill. *)
Lemma update_all_snoc (txns : list Transaction) (txn : Transaction) :
  forall p0 : Position,
  update_all (txns ++ [txn]) p0 =
    match update_all txns p0 with
    | (Ok _, p) => update txn p
    | (Raise e, p) => (Raise e, p)
    end.
Proof.
  induction txns as [|t rest IH]; intro p0; simpl; unfold bind.
  - unfold ret. destruct (update txn p0) as [[[]|e] p]; reflexivity.
  - destruct (update t p0) as [[[]|e] p1]; [apply IH | reflexivity].
Qed.


(** The same read off a whole run: a non-empty stream of fills that ran
    without raising and brought the amount within 1e-3 of zero left the
    cost basis and both exit prices at zero. *)
Lemma update_all_flat (p0 p' : Position) (txns : list Transaction) :
  txns <> [] ->
  Qabs (amount p0 + total_amount txns) < 1 # 1000 ->
  update_all txns p0 = (Ok tt, p') ->
  cost_basis p' = 0 /\ take_profit_price p' = 0 /\ stop_loss_price p' = 0 /\
  amount p' == amount p0 + total_amount txns.
Proof.
  intros Hne Ht Hrun.
  destruct (exists_last Hne) as (front & txn & ->).
  rewrite update_all_snoc in Hrun.
  destruct (update_all front p0) as [[[]|e] p] eqn:Hfront; [|discriminate].
  destruct (update_all_ok_amount front p0 p Hfront) as [_ Hm].
  assert (Hsum : amount p + txn_amount txn
                 == amount p0 + total_amount (front ++ [txn])).
  { rewrite Hm, total_amount_app. ring. }
  destruct (asset_eqb (asset p) (txn_asset txn)) eqn:Ha;
    [| rewrite (update_mismatch p txn Ha) in Hrun; discriminate].
  rewrite <- Hsum in Ht.
  rewrite (update_flat p txn Ha Ht) in Hrun. inversion Hrun; subst p'.
  simpl. auto.
Qed.

(** ** What a raised exception leaves behind *)

Lemma update_exit_prices_raise tp sl a l (p p' : Position) (e : exn) :
  update_exit_prices tp sl a l p = (Raise e, p') ->
  e = ValueError /\ same_except_take_profit p' p /\
  take_profit_kept_or_stored p p' tp a.
Proof.
  unfold update_exit_prices, bind, get, ret, raise, set_take_profit_price,
    set_stop_loss_price, same_except_take_profit, take_profit_kept_or_stored,
    effective_amount.
  intro H.
  destruct tp as [tp|], sl as [sl|], a as [a|];
    repeat match type of H with
           | context [if ?b then _ else _] => destruct b
           end;
    simpl in H; inversion H; subst; simpl;
    (split; [reflexivity | split; [auto 10 |]]);
    solve [left; reflexivity | right; eexists; split; reflexivity].
Qed.

Lemma handle_split_raise a ratio (p p' : Position) (e : exn) :
  handle_split a ratio p = (Raise e, p') -> p' = p.
Proof.
  unfold handle_split. unfold bind at 1. unfold get at 1. cbv beta iota.
  destruct (asset_eqb (asset p) a); cbn [negb].
  - unfold bind at 1. unfold lift, float_truediv.
    destruct (Qeq_bool ratio 0).
    + intro H. inversion H. reflexivity.
    + unfold bind, get, when, ret, set_cost_basis, set_amount,
        set_take_profit_price, set_stop_loss_price.
      cbn [asset amount cost_basis last_sale_price last_sale_date
           take_profit_price stop_loss_price].
      intro H.
      repeat match type of H with
             | context [if ?b then _ else _] => destruct b
             end; discriminate.
  - intro H. inversion H. reflexivity.
Qed.

Lemma adjust_commission_cost_basis_raise a cost (p p' : Position) (e : exn) :
  adjust_commission_cost_basis a cost p = (Raise e, p') -> p' = p.
Proof.
  unfold adjust_commission_cost_basis, bind, get, ret, raise, lift, truediv,
    set_cost_basis.
  intro H.
  repeat match type of H with
         | context [match ?o with Some _ => _ | None => _ end] => destruct o
         | context [if ?b then _ else _] => destruct b
         end;
    simpl in H; inversion H; subst; try reflexivity.
Qed.

Lemma update_raise (txn : Transaction) (p p' : Position) (e : exn) :
  update txn p = (Raise e, p') ->
  (e = Exception "updating position with txn for a different asset" /\ p' = p) \/
  (e = ValueError /\ 1 # 1000 <= Qabs (amount p + txn_amount txn) /\
   same_except_take_profit p' (before_exit_prices p txn) /\
   take_profit_kept_or_stored (before_exit_prices p txn) p'
     (txn_take_profit_price txn) (Some (amount p + txn_amount txn))).
Proof.
  intro H.
  destruct (asset_eqb (asset p) (txn_asset txn)) eqn:Ha.
  - right.
    destruct (Qlt_le_dec (Qabs (amount p + txn_amount txn)) (1 # 1000)) as [Ht|Ht].
    + rewrite (update_flat p txn Ha Ht) in H. discriminate.
    + rewrite (update_not_flat p txn Ha Ht) in H.
      destruct (update_exit_prices _ _ _ _ _) as [[u|e'] p3] eqn:Hx.
      * unfold set_amount in H. discriminate.
      * inversion H; subst. apply update_exit_prices_raise in Hx. tauto.
  - left. rewrite (update_mismatch p txn Ha) in H. inversion H. auto.
Qed.

(** C3 (as amended).  When a ledger operation raises:
    [handle_split] and [adjust_commission_cost_basis] have changed no
    field, and neither has [update] when it raised for a different asset;
    [update_exit_prices] has changed no field other than
    [take_profit_price], which is as before or holds the quantized
    take-profit that was asked for; [update], when the validation of the
    transaction's exit prices raised, has already assigned the merged
    cost basis and the last sale, has kept [asset], [amount] and
    [stop_loss_price], and has left or stored [take_profit_price] in the
    same way. *)
Theorem raise_frame (c : LedgerCall) (p p' : Position) (e : exn) :
  call c p = (Raise e, p') ->
  match c with
  | CallUpdate txn =>
      (e = Exception "updating position with txn for a different asset" /\ p' = p) \/
      (e = ValueError /\ 1 # 1000 <= Qabs (amount p + txn_amount txn) /\
       same_except_take_profit p' (before_exit_prices p txn) /\
       take_profit_kept_or_stored (before_exit_prices p txn) p'
         (txn_take_profit_price txn) (Some (amount p + txn_amount txn)))
  | CallUpdateExitPrices tp _ a _ =>
      e = ValueError /\ same_except_take_profit p' p /\
      take_profit_kept_or_stored p p' tp a
  | _ => p' = p
  end.
Proof.
  destruct c; simpl; unfold bind;
    match goal with
    | |- context [match ?m p with _ => _ end] => destruct (m p) as [[x|e'] q] eqn:Hm
    end; intro H; try discriminate; inversion H; subst.
  - now apply update_raise.
  - now apply handle_split_raise in Hm.
  - now apply adjust_commission_cost_basis_raise in Hm.
  - now apply update_exit_prices_raise in Hm.
Qed.

(** ** Calls for another asset *)


(** ** Exit-price validation *)

(** C4 (as amended).  For a long position ([amount > 0]) whose
    [last_sale_price] is 100, with the last sale price handed to
    [update_exit_prices] and the amount left to default:
    a take-profit of 95 raises [ValueError] when the position already has
    a non-zero take-profit, and is accepted when it has none;
    a stop-loss of 105 raises [ValueError] when the position already has
    a non-zero stop-loss, and is accepted when it has none;
    a take-profit of 110 and a stop-loss of 90 are accepted.  A rejected
    level changes nothing; an accepted one is stored quantized. *)
Theorem exit_price_rejection (p : Position) :
  0 < amount p ->
  last_sale_price p == 100 ->
  let lsp := Some (last_sale_price p) in
  let tick := tick_size (asset p) in
  (~ take_profit_price p == 0 ->
   update_exit_prices (Some 95) None None lsp p = (Raise ValueError, p)) /\
  (take_profit_price p == 0 ->
   update_exit_prices (Some 95) None None lsp p =
     (Ok tt, with_take_profit p (asymmetric_round_price 95 false tick))) /\
  (~ stop_loss_price p == 0 ->
   update_exit_prices None (Some 105) None lsp p = (Raise ValueError, p)) /\
  (stop_loss_price p == 0 ->
   update_exit_prices None (Some 105) None lsp p =
     (Ok tt, with_stop_loss p (asymmetric_round_price 105 true tick))) /\
  update_exit_prices (Some 110) None None lsp p =
    (Ok tt, with_take_profit p (asymmetric_round_price 110 false tick)) /\
  update_exit_prices None (Some 90) None lsp p =
    (Ok tt, with_stop_loss p (asymmetric_round_price 90 true tick)).
Proof.
  intros Hlong Hlsp lsp tick. subst lsp tick.
  assert (Hpos : Qlt_bool 0 (amount p) = true) by now apply Qlt_bool_iff.
  unfold update_exit_prices, bind, get, ret, raise, resulting_direction,
    take_profit_round_down, stop_loss_round_down.
  rewrite (copysign1_pos _ Hlong), Hpos. cbn [negb].
  assert (H95 : Qlt_bool (1 * 95) (1 * last_sale_price p) = true)
    by (rewrite Hlsp; reflexivity).
  assert (H105 : Qlt_bool (1 * last_sale_price p) (1 * 105) = true)
    by (rewrite Hlsp; reflexivity).
  assert (H110 : Qlt_bool (1 * 110) (1 * last_sale_price p) = false)
    by (rewrite Hlsp; reflexivity).
  assert (H90 : Qlt_bool (1 * last_sale_price p) (1 * 90) = false)
    by (rewrite Hlsp; reflexivity).
  rewrite H95, H105, H110, H90, !andb_false_r, !andb_true_r.
  repeat split.
  - intro H. apply Qeq_bool_false_iff in H. rewrite H. reflexivity.
  - intro H. apply Qeq_bool_iff in H. rewrite H. reflexivity.
  - intro H. apply Qeq_bool_false_iff in H. rewrite H. reflexivity.
  - intro H. apply Qeq_bool_iff in H. rewrite H. reflexivity.
Qed.

(** ** A zero amount in [update_exit_prices] *)

Lemma Qlt_bool_pos_direction (x y : Q) : Qlt_bool (1 * x) (1 * y) = Qlt_bool x y.
Proof. apply Qlt_bool_comp; apply Qmult_1_l. Qed.

Lemma Qlt_bool_neg_direction (x y : Q) :
  Qlt_bool (-(1) * x) (-(1) * y) = Qlt_bool y x.
Proof.
  destruct (Qlt_bool y x) eqn:H.
  - apply Qlt_bool_iff in H. apply Qlt_bool_iff. lra.
  - apply Qlt_bool_false_iff in H. apply Qlt_bool_false_iff. lra.
Qed.

(** The rational of a finite float has the sign of its sign bit. *)
Lemma Q_of_float_finite_pos (m : positive) (e : Z) :
  0 < inject_Z (Z.pos m) * 2 ^ e.
Proof.
  apply Qmult_lt_0_compat.
  - change 0 with (inject_Z 0). rewrite <- Zlt_Qlt. reflexivity.
  - apply Qpower_0_lt. reflexivity.
Qed.

Lemma float_copysign1_Q (s : bool) (m : positive) (e : Z) :
  float_copysign1 (S754_finite s m e) = copysign1 (Q_of_float (S754_finite s m e)).
Proof.
  pose proof (Q_of_float_finite_pos m e) as Hpos.
  destruct s; cbn [float_copysign1 Q_of_float]; symmetry.
  - apply copysign1_neg. lra.
  - now apply copysign1_pos.
Qed.

Lemma float_gt0_Q (s : bool) (m : positive) (e : Z) :
  float_gt0 (S754_finite s m e) = Qlt_bool 0 (Q_of_float (S754_finite s m e)).
Proof.
  pose proof (Q_of_float_finite_pos m e) as Hpos.
  destruct s; cbn [Q_of_float]; symmetry.
  - apply Qlt_bool_false_iff. lra.
  - now apply Qlt_bool_iff.
Qed.

(** On the float [0.0] and on every finite non-zero float, reading the
    [amount] argument as a float and as the rational it denotes give the
    same call. *)
Lemma update_exit_prices_float_agrees tp sl (f : spec_float) l (p : Position) :
  match f with
  | S754_zero false | S754_finite _ _ _ =>
      update_exit_prices_float tp sl f l p
      = update_exit_prices tp sl (Some (Q_of_float f)) l p
  | _ => True
  end.
Proof.
  destruct f as [[|]|s| |s m e]; try exact I.
  - reflexivity.
  - unfold update_exit_prices_float, update_exit_prices, resulting_direction,
      take_profit_round_down, stop_loss_round_down.
    rewrite float_copysign1_Q, float_gt0_Q. reflexivity.
Qed.

(** C10 (as amended).  When the amount [update_exit_prices] works with is
    the integer [0] or the float [0.0] (given as such, or defaulted from a
    flat position), the ordering checks use the direction [+1], as for a
    long position: a take-profit below the last price is rejected when a
    take-profit is already set, and a stop-loss above the last price when
    a stop-loss is already set.  The tick quantizer is handed the flags of
    a short position: [True] with the take-profit, [False] with the
    stop-loss.  The outcome of the call is given in full: a rejected
    take-profit leaves the position as it was, a rejected stop-loss leaves
    it with the take-profit stored, and an accepted call stores both.
    When the amount is the float [-0.0], which is equal to 0 as well,
    [copysign] gives [-1]: the checks are those of a short position (a
    take-profit above the last price, a stop-loss below it are rejected),
    and the flags are the same. *)
Theorem flat_amount_exit_prices (p : Position) (tp sl a l : option Q) :
  effective_amount p a == 0 ->
  let tick := tick_size (asset p) in
  let level_set (level : Q) := negb (Qeq_bool level 0) in
  let below (x y : option Q) :=
    match x, y with
    | Some x, Some y => Qlt_bool x y
    | _, _ => false
    end in
  let stored_tp :=
    match tp with
    | Some t => with_take_profit p (asymmetric_round_price t true tick)
    | None => p
    end in
  let stored_sl :=
    match sl with
    | Some s => with_stop_loss stored_tp (asymmetric_round_price s false tick)
    | None => stored_tp
    end in
  update_exit_prices tp sl a l p =
    (if level_set (take_profit_price p) && below tp l then (Raise ValueError, p)
     else if level_set (stop_loss_price p) && below l sl
          then (Raise ValueError, stored_tp)
          else (Ok tt, stored_sl)) /\
  update_exit_prices_float tp sl (S754_zero false) l p
  = update_exit_prices tp sl a l p /\
  update_exit_prices_float tp sl (S754_zero true) l p =
    (if level_set (take_profit_price p) && below l tp then (Raise ValueError, p)
     else if level_set (stop_loss_price p) && below sl l
          then (Raise ValueError, stored_tp)
          else (Ok tt, stored_sl)).
Proof.
  intro Hz. cbv zeta.
  assert (Hdir : copysign1 (effective_amount p a) = 1) by now apply copysign1_zero.
  assert (Hlt : Qlt_bool 0 (effective_amount p a) = false)
    by (rewrite Hz; reflexivity).
  assert (Hzero : update_exit_prices tp sl a l p
                  = update_exit_prices tp sl (Some 0) l p).
  { unfold update_exit_prices, bind at 1, get at 1, resulting_direction,
      take_profit_round_down, stop_loss_round_down.
    fold (effective_amount p a). cbv beta iota.
    rewrite Hdir, Hlt. reflexivity. }
  split; [|split].
  - rewrite Hzero.
    unfold update_exit_prices, bind, get, ret, raise, resulting_direction,
      take_profit_round_down, stop_loss_round_down, set_take_profit_price,
      set_stop_loss_price, with_take_profit, with_stop_loss.
    change (copysign1 0) with 1. change (Qlt_bool 0 0) with false.
    destruct tp as [t|], sl as [s|], l as [last|];
      rewrite ?Qlt_bool_pos_direction, ?andb_false_r;
      cbn [negb andb asset amount cost_basis last_sale_price last_sale_date
           take_profit_price stop_loss_price];
      repeat match goal with
             | |- context [if ?c then _ else _] =>
                 destruct c;
                 cbn [negb andb asset amount cost_basis last_sale_price
                      last_sale_date take_profit_price stop_loss_price]
             end; reflexivity.
  - rewrite Hzero. reflexivity.
  - unfold update_exit_prices_float, bind, get, ret, raise,
      set_take_profit_price, set_stop_loss_price, with_take_profit,
      with_stop_loss.
    change (float_copysign1 (S754_zero true)) with (-(1)).
    change (float_gt0 (S754_zero true)) with false.
    destruct tp as [t|], sl as [s|], l as [last|];
      rewrite ?Qlt_bool_neg_direction, ?andb_false_r;
      cbn [negb andb asset amount cost_basis last_sale_price last_sale_date
           take_profit_price stop_loss_price];
      repeat match goal with
             | |- context [if ?c then _ else _] =>
                 destruct c;
                 cbn [negb andb asset amount cost_basis last_sale_price
                      last_sale_date take_profit_price stop_loss_price]
             end; reflexivity.
Qed.

(** ** Last sale *)


(** ** Splits *)

(** C6.  For a position, its own asset and a non-zero split ratio,
    [handle_split] sets [amount] to [floor(amount / ratio)] and
    [cost_basis] to [round(cost_basis * ratio, 2)], returns
    [round((amount/ratio - floor(amount/ratio)) * new_cost_basis, 2)], and
    replaces each non-zero exit price by [round(price * ratio, 2)]; the
    other fields, and an exit price of zero, are left as they were.  The
    quotient, the products, the difference and the roundings to cents are
    those of the machine, whatever they are. *)
Theorem handle_split_ok (p : Position) (a : Asset) (ratio : Q) :
  asset_eqb (asset p) a = true ->
  ~ ratio == 0 ->
  let raw_share_count := float_div (amount p) ratio in
  let full_share_count := inject_Z (Qfloor raw_share_count) in
  let new_cost_basis := float_round2 (float_mul (cost_basis p) ratio) in
  handle_split a ratio p =
    (Ok (float_round2
           (float_mul (float_sub raw_share_count full_share_count) new_cost_basis)),
     mkPosition (asset p) full_share_count new_cost_basis
       (last_sale_price p) (last_sale_date p)
       (if Qeq_bool (take_profit_price p) 0 then take_profit_price p
        else float_round2 (float_mul (take_profit_price p) ratio))
       (if Qeq_bool (stop_loss_price p) 0 then stop_loss_price p
        else float_round2 (float_mul (stop_loss_price p) ratio))).
Proof.
  intros Ha Hr. apply Qeq_bool_false_iff in Hr. cbv zeta.
  unfold handle_split. unfold bind at 1. unfold get at 1. cbv beta iota.
  rewrite Ha. cbn [negb].
  unfold bind at 1. unfold lift, float_truediv. rewrite Hr.
  unfold bind, get, when, ret, set_cost_basis, set_amount,
    set_take_profit_price, set_stop_loss_price, np_floor.
  cbn [asset amount cost_basis last_sale_price last_sale_date
       take_profit_price stop_loss_price].
  destruct (Qeq_bool (take_profit_price p) 0) eqn:Htp;
    destruct (Qeq_bool (stop_loss_price p) 0) eqn:Hsl;
    cbn [negb asset amount cost_basis last_sale_price last_sale_date
         take_profit_price stop_loss_price];
    rewrite ?Htp, ?Hsl;
    cbn [negb asset amount cost_basis last_sale_price last_sale_date
         take_profit_price stop_loss_price]; reflexivity.
Qed.

(** ** Commissions *)

(** C7.  For a position and its own asset, [adjust_commission_cost_basis]
    returns with every field unchanged when [cost == 0] or [amount == 0].
    Otherwise it sets [cost_basis] to
    [(cost_basis * amount + cost_to_use) / amount] and changes no other
    field, where [cost_to_use] is [cost] for an asset that is not a
    [Future] and [cost / price_multiplier] for a [Future] (whose
    multiplier is not zero). *)
Theorem adjust_commission_cost_basis_ok (p : Position) (a : Asset) (cost : Q) :
  asset_eqb a (asset p) = true ->
  (cost == 0 \/ amount p == 0 ->
   adjust_commission_cost_basis a cost p = (Ok tt, p)) /\
  (~ cost == 0 -> ~ amount p == 0 -> price_multiplier a = None ->
   adjust_commission_cost_basis a cost p =
     (Ok tt, with_cost_basis p ((cost_basis p * amount p + cost) / amount p))) /\
  (~ cost == 0 -> ~ amount p == 0 ->
   forall m : Q, price_multiplier a = Some m -> ~ m == 0 ->
   adjust_commission_cost_basis a cost p =
     (Ok tt, with_cost_basis p ((cost_basis p * amount p + cost / m) / amount p))).
Proof.
  intro Ha.
  unfold adjust_commission_cost_basis, bind, get, ret, raise, lift, truediv,
    set_cost_basis, with_cost_basis.
  rewrite Ha. cbn [negb].
  split; [|split].
  - intros [Hc | Hz].
    + apply Qeq_bool_iff in Hc. now rewrite Hc.
    + apply Qeq_bool_iff in Hz.
      destruct (Qeq_bool cost 0); [reflexivity | now rewrite Hz].
  - intros Hc Hz Hm.
    apply Qeq_bool_false_iff in Hc. apply Qeq_bool_false_iff in Hz.
    rewrite Hc, Hz, Hm. reflexivity.
  - intros Hc Hz m Hm Hm0.
    apply Qeq_bool_false_iff in Hc. apply Qeq_bool_false_iff in Hz.
    apply Qeq_bool_false_iff in Hm0.
    rewrite Hc, Hz, Hm, Hm0. reflexivity.
Qed.

End LedgerFacts.

(** ** Order rounding *)

#[export] Instance py_round_comp : Proper (Qeq ==> eq) py_round.
Proof.
  intros x y H. unfold py_round.
  rewrite (Qfloor_comp x y H).
  assert (Hc : Qcompare (x - inject_Z (Qfloor y)) (1 # 2)
             = Qcompare (y - inject_Z (Qfloor y)) (1 # 2)).
  { apply Qcompare_comp; [now rewrite H | reflexivity]. }
  now rewrite Hc.
Qed.

#[export] Instance py_int_comp : Proper (Qeq ==> eq) py_int.
Proof.
  intros x y H. unfold py_int.
  rewrite (Qlt_bool_comp x y H 0 0 (Qeq_refl 0)).
  now rewrite (Qceiling_comp x y H), (Qfloor_comp x y H).
Qed.

Lemma py_round_Z (n : Z) : py_round (inject_Z n) = n.
Proof.
  unfold py_round. rewrite Qfloor_Z.
  replace (Qcompare (inject_Z n - inject_Z n) (1 # 2)) with Lt; [reflexivity|].
  symmetry. apply Qlt_alt.
  setoid_replace (inject_Z n - inject_Z n) with 0 by ring. reflexivity.
Qed.

Lemma py_int_Z (n : Z) : py_int (inject_Z n) = n.
Proof.
  unfold py_int. rewrite Qceiling_Z, Qfloor_Z. now destruct (Qlt_bool _ _).
Qed.

(** An integer is returned as it is, whatever the tolerance. *)
Lemma round_if_near_integer_Z (epsilon : Q) (n : Z) :
  round_if_near_integer epsilon (inject_Z n) = inject_Z n.
Proof.
  unfold round_if_near_integer. rewrite py_round_Z.
  now destruct (Qle_bool _ _).
Qed.

(** [round(x)] of a value less than one half away from an integer is that
    integer. *)
Lemma py_round_near (x : Q) (n : Z) :
  Qabs (x - inject_Z n) < 1 # 2 -> py_round x = n.
Proof.
  intro H. apply Qabs_Qlt_condition in H. destruct H as [Hlo Hhi].
  pose proof (Qfloor_le x) as Hfl. pose proof (Qlt_floor x) as Hfu.
  rewrite inject_Z_plus in Hfu. change (inject_Z 1) with 1 in Hfu.
  unfold py_round.
  destruct (Qcompare (x - inject_Z (Qfloor x)) (1 # 2)) eqn:Hc.
  - apply Qeq_alt in Hc.
    assert (H1 : inject_Z (Qfloor x) < inject_Z n + 1) by lra.
    assert (H2 : inject_Z n - 1 < inject_Z (Qfloor x)) by lra.
    change 1 with (inject_Z 1) in H1, H2.
    rewrite <- inject_Z_plus in H1. rewrite <- Zlt_Qlt in H1.
    unfold Qminus in H2. rewrite <- inject_Z_opp, <- inject_Z_plus in H2.
    rewrite <- Zlt_Qlt in H2.
    assert (Hn : Qfloor x = n) by lia.
    rewrite Hn in Hc. lra.
  - apply Qlt_alt in Hc.
    assert (H1 : inject_Z (Qfloor x) < inject_Z n + 1) by lra.
    assert (H2 : inject_Z n - 1 < inject_Z (Qfloor x)) by lra.
    change 1 with (inject_Z 1) in H1, H2.
    rewrite <- inject_Z_plus in H1. rewrite <- Zlt_Qlt in H1.
    unfold Qminus in H2. rewrite <- inject_Z_opp, <- inject_Z_plus in H2.
    rewrite <- Zlt_Qlt in H2.
    lia.
  - apply Qgt_alt in Hc.
    assert (H1 : inject_Z (Qfloor x) + 1 < inject_Z n + 1) by lra.
    assert (H2 : inject_Z n - 1 < inject_Z (Qfloor x) + 1) by lra.
    change 1 with (inject_Z 1) in H1, H2.
    rewrite <- !inject_Z_plus in H1. rewrite <- Zlt_Qlt in H1.
    unfold Qminus in H2. rewrite <- inject_Z_opp, <- !inject_Z_plus in H2.
    rewrite <- Zlt_Qlt in H2.
    lia.
Qed.

(** A value within the tolerance of an integer is taken to that integer. *)
Lemma int_round_if_near_integer_near (epsilon x : Q) (n : Z) :
  epsilon < 1 # 2 ->
  Qabs (x - inject_Z n) <= epsilon ->
  py_int (round_if_near_integer epsilon x) = n.
Proof.
  intros He Hx.
  assert (Hr : py_round x = n).
  { apply py_round_near. eapply Qle_lt_trans; eassumption. }
  unfold round_if_near_integer. rewrite Hr.
  apply Qle_bool_iff in Hx. rewrite Hx. apply py_int_Z.
Qed.

(** A value further than the tolerance from the nearest integer is
    returned as it is, and the fractional rounding truncates it. *)
Lemma round_if_near_integer_far (epsilon a : Q) :
  epsilon < Qabs (a - inject_Z (py_round a)) ->
  round_if_near_integer epsilon a = a.
Proof.
  intro H. unfold round_if_near_integer.
  destruct (Qle_bool (Qabs (a - inject_Z (py_round a))) epsilon) eqn:Hle;
    [| reflexivity].
  apply Qle_bool_iff in Hle. lra.
Qed.

Lemma round_order_far {F : FloatArith} (epsilon precision q : Q) :
  Qeq_bool precision 0 = false ->
  epsilon < Qabs (float_div q precision
                  - inject_Z (py_round (float_div q precision))) ->
  round_order epsilon (FractionalSharesRounding precision) q
  = Ok (float_mul (inject_Z (py_int (float_div q precision))) precision).
Proof.
  intros Hp Hfar. cbn [round_order]. unfold float_truediv. rewrite Hp.
  cbn [result_bind]. now rewrite (round_if_near_integer_far _ _ Hfar).
Qed.

(** C9 (as amended).  The whole-share rounding is idempotent: rounding a
    rounded quantity returns it.  The fractional-share rounding returns
    [n * precision], where [n] is the whole number of steps the quantity
    was taken to; rounding that again returns it whenever the machine's
    quotient of the rounded quantity by the precision is within the
    near-integer tolerance (a tolerance below one half) of [n].  With
    doubles the quotient can fall further below [n] than the tolerance,
    and the second rounding then returns one step less. *)
Theorem round_order_idempotent {F : FloatArith}
    (epsilon : Q) (self : OrderRounding) (q r : Q) :
  round_order epsilon self q = Ok r ->
  match self with
  | FullSharesRounding => round_order epsilon self r = Ok r
  | FractionalSharesRounding precision =>
      epsilon < 1 # 2 ->
      Qabs (float_div r precision - inject_Z (steps epsilon precision q)) <= epsilon ->
      round_order epsilon self r = Ok r
  end.
Proof.
  destruct self as [|precision]; cbn [round_order].
  - intro H. inversion H; subst r. clear H.
    now rewrite round_if_near_integer_Z, py_int_Z.
  - unfold float_truediv. destruct (Qeq_bool precision 0) eqn:Hp;
      cbn [result_bind]; [discriminate|].
    intro H. inversion H as [Hr]. clear H. fold (steps epsilon precision q).
    intros He Hnear.
    now rewrite (int_round_if_near_integer_near epsilon _ _ He Hnear).
Qed.

(** * Further properties *)

(** Boolean tests in the hypotheses, read as propositions. *)
Ltac q_reflect :=
  repeat match goal with
         | H : Qeq_bool _ _ = true |- _ => apply Qeq_bool_iff in H
         | H : Qeq_bool _ _ = false |- _ => apply Qeq_bool_false_iff in H
         | H : Qlt_bool _ _ = true |- _ => apply Qlt_bool_iff in H
         | H : Qlt_bool _ _ = false |- _ => apply Qlt_bool_false_iff in H
         end.

Section LedgerMore.
Context {E : AssetEnv} {F : FloatArith}.

(** ** Streams of fills *)

Lemma date_le_refl (a : option Z) : date_le a a.
Proof. destruct a; simpl; [lia | exact I]. Qed.

Lemma date_le_trans (a b c : option Z) : date_le a b -> date_le b c -> date_le a c.
Proof. destruct a, b, c; simpl; try tauto; lia. Qed.

Lemma before_exit_prices_date (p : Position) (txn : Transaction) :
  date_le (last_sale_date p) (last_sale_date (before_exit_prices p txn)).
Proof.
  unfold before_exit_prices, txn_is_later. simpl.
  destruct (last_sale_date p) as [d|] eqn:Hd; simpl; [|exact I].
  destruct (d <? txn_dt txn)%Z eqn:Hlt; simpl; [|lia].
  apply Z.ltb_lt in Hlt. lia.
Qed.

(** One merge, whatever its outcome: the asset stays, the last sale date
    does not go back, and [amount] has taken the fill exactly when the
    merge returned. *)
Lemma update_step (p p' : Position) (txn : Transaction) (r : result unit) :
  update txn p = (r, p') ->
  asset p' = asset p /\
  date_le (last_sale_date p) (last_sale_date p') /\
  match r with
  | Ok _ => amount p' = amount p + txn_amount txn
  | Raise _ => amount p' = amount p
  end.
Proof.
  intro H.
  destruct (asset_eqb (asset p) (txn_asset txn)) eqn:Ha.
  - destruct (Qlt_le_dec (Qabs (amount p + txn_amount txn)) (1 # 1000)) as [Ht|Ht].
    + rewrite (update_flat p txn Ha Ht) in H. inversion H; subst. simpl.
      split; [reflexivity | split; [apply date_le_refl | reflexivity]].
    + rewrite (update_not_flat p txn Ha Ht) in H.
      pose proof (before_exit_prices_date p txn) as Hdate.
      destruct (update_exit_prices _ _ _ _ _) as [[u|e] p3] eqn:Hx;
        apply update_exit_prices_frame in Hx;
        destruct Hx as (Has & Ham & _ & _ & Hd).
      * unfold set_amount in H. inversion H; subst. simpl.
        rewrite Hd. auto.
      * inversion H; subst. rewrite Hd, Has, Ham. auto.
  - rewrite (update_mismatch p txn Ha) in H. inversion H; subst.
    split; [reflexivity | split; [apply date_le_refl | reflexivity]].
Qed.

Lemma update_all_date_run (txns : list Transaction) :
  forall (p p' : Position) (r : result unit),
  update_all txns p = (r, p') ->
  date_le (last_sale_date p) (last_sale_date p').
Proof.
  induction txns as [|txn rest IH]; intros p p' r H; simpl in H.
  - inversion H; subst. apply date_le_refl.
  - unfold bind in H.
    destruct (update txn p) as [[u|e] p1] eqn:H1;
      apply update_step in H1; destruct H1 as (_ & Hd & _).
    + apply IH in H. eapply date_le_trans; eassumption.
    + inversion H; subst. exact Hd.
Qed.


(** X1.  Over any stream of fills, whether it ran to the end or stopped at
    an exception, [last_sale_date] never goes back: it is unset only if
    it was unset before, and otherwise at least what it was. *)
Theorem update_all_last_sale_date (txns : list Transaction) (p : Position) :
  date_le (last_sale_date p) (last_sale_date (snd (update_all txns p))).
Proof.
  destruct (update_all txns p) as [r p'] eqn:H. simpl.
  exact (update_all_date_run txns p p' r H).
Qed.


(** ** Exit prices *)

(** X4.  A transaction for the position's asset that carries neither a
    take-profit nor a stop-loss is always merged: [update] returns, with
    the fill added to [amount]; unless the position is closed by it, both
    exit prices are left as they were. *)
Theorem update_without_exit_prices (p : Position) (txn : Transaction) :
  asset_eqb (asset p) (txn_asset txn) = true ->
  txn_take_profit_price txn = None ->
  txn_stop_loss_price txn = None ->
  exists p' : Position,
    update txn p = (Ok tt, p') /\
    amount p' = amount p + txn_amount txn /\
    (1 # 1000 <= Qabs (amount p + txn_amount txn) ->
     take_profit_price p' = take_profit_price p /\
     stop_loss_price p' = stop_loss_price p).
Proof.
  intros Ha Htp Hsl.
  destruct (Qlt_le_dec (Qabs (amount p + txn_amount txn)) (1 # 1000)) as [Ht|Ht].
  - exists (flattened p (amount p + txn_amount txn)).
    split; [now apply update_flat | split; [reflexivity|]].
    intro Hge. exfalso. lra.
  - rewrite (update_not_flat p txn Ha Ht), Htp, Hsl.
    eexists. split; [reflexivity | split; [reflexivity|]].
    intros _. split; reflexivity.
Qed.

(** X5.  Whatever its arguments and its outcome, [update_exit_prices]
    assigns nothing but the two exit prices, and an exit price whose
    argument is [None] keeps its value; with both arguments [None] the
    call returns and changes nothing. *)
Theorem update_exit_prices_touches (p : Position) (tp sl a l : option Q) :
  let after := snd (update_exit_prices tp sl a l p) in
  asset after = asset p /\ amount after = amount p /\
  cost_basis after = cost_basis p /\
  last_sale_price after = last_sale_price p /\
  last_sale_date after = last_sale_date p /\
  (tp = None -> take_profit_price after = take_profit_price p) /\
  (sl = None -> stop_loss_price after = stop_loss_price p) /\
  (tp = None -> sl = None -> update_exit_prices tp sl a l p = (Ok tt, p)).
Proof.
  cbv zeta.
  destruct (update_exit_prices tp sl a l p) as [r p'] eqn:H.
  pose proof (update_exit_prices_frame tp sl a l p p' r H) as (H1 & H2 & H3 & H4 & H5).
  cbn [snd]. repeat (split; [assumption|]).
  revert H.
  unfold update_exit_prices, bind, get, ret, raise, set_take_profit_price,
    set_stop_loss_price.
  intro H. split; [|split].
  - intros ->.
    repeat match type of H with
           | context [match ?o with Some _ => _ | None => _ end] => destruct o
           | context [if ?b then _ else _] => destruct b
           end; simpl in H; inversion H; subst; reflexivity.
  - intros ->.
    repeat match type of H with
           | context [match ?o with Some _ => _ | None => _ end] => destruct o
           | context [if ?b then _ else _] => destruct b
           end; simpl in H; inversion H; subst; reflexivity.
  - intros -> ->. simpl in H. inversion H; subst. destruct p'; reflexivity.
Qed.


(** ** Exit orders *)

(** X7.  [get_exit_orders] leaves the position as it is and returns at
    most two orders, none exactly when both exit prices are zero.  Every
    order is dated [last_sale_date], is for the position's asset and for
    [-amount], and carries either the stop-loss as its stop and no limit,
    or the take-profit as its limit and no stop; the price it carries is
    never [None]. *)
Theorem get_exit_orders_shape (p : Position) :
  exists orders : list NewOrder,
    get_exit_orders p = (Ok orders, p) /\
    (List.length orders <= 2)%nat /\
    (orders = [] <-> stop_loss_price p == 0 /\ take_profit_price p == 0) /\
    Forall (fun o =>
              order_dt o = last_sale_date p /\
              order_asset o = asset p /\
              order_amount o = - amount p /\
              ((order_stop o = Some (stop_loss_price p) /\ order_limit o = None /\
                ~ stop_loss_price p == 0) \/
               (order_limit o = Some (take_profit_price p) /\ order_stop o = None /\
                ~ take_profit_price p == 0))) orders.
Proof.
  unfold get_exit_orders, bind, get, ret, or_None.
  destruct (Qeq_bool (stop_loss_price p) 0) eqn:Hsl;
    destruct (Qeq_bool (take_profit_price p) 0) eqn:Htp;
    cbn [negb app]; eexists; (split; [reflexivity|]);
    q_reflect;
    (split; [simpl; lia|]);
    (split; [split; [intro H; try discriminate H; tauto
                    | intros [H1 H2]; try reflexivity; contradiction]|]);
    repeat constructor; simpl; tauto.
Qed.


(** ** From an order's exit prices to the position *)

(** X15.  The exit prices of an order reach the position with its fill:
    when the position has no exit price set and the fill does not close
    it, merging the transaction created for an order of the position's
    asset returns, adds the fill to [amount], and stores each exit price
    the order carries, quantized with the round-down flag of the new
    amount; an exit price the order does not carry stays unset. *)
Theorem order_exit_prices_reach_position
    (p : Position) (order : Order) (dt : Z) (price amount' : Q) :
  asset_eqb (asset p) (asset_of_order order) = true ->
  take_profit_price p == 0 ->
  stop_loss_price p == 0 ->
  1 # 1000 <= Qabs (amount p + amount') ->
  exists p' : Position,
    update (create_transaction order dt price amount') p = (Ok tt, p') /\
    amount p' = amount p + amount' /\
    take_profit_price p' =
      match exit_take_profit_price order with
      | Some tp => asymmetric_round_price tp
                     (take_profit_round_down (amount p + amount'))
                     (tick_size (asset p))
      | None => take_profit_price p
      end /\
    stop_loss_price p' =
      match exit_stop_loss_price order with
      | Some sl => asymmetric_round_price sl
                     (stop_loss_round_down (amount p + amount'))
                     (tick_size (asset p))
      | None => stop_loss_price p
      end.
Proof.
  intros Ha Htp Hsl Ht.
  apply Qeq_bool_iff in Htp. apply Qeq_bool_iff in Hsl.
  rewrite (update_not_flat p (create_transaction order dt price amount') Ha Ht).
  unfold create_transaction.
  cbn [txn_take_profit_price txn_stop_loss_price txn_amount].
  unfold update_exit_prices, bind, get, ret, raise, set_take_profit_price,
    set_stop_loss_price, set_amount, before_exit_prices.
  cbn [asset amount cost_basis last_sale_price last_sale_date
       take_profit_price stop_loss_price].
  destruct (exit_take_profit_price order) as [tp|];
    destruct (exit_stop_loss_price order) as [sl|];
    cbn [asset amount cost_basis last_sale_price last_sale_date
         take_profit_price stop_loss_price];
    rewrite ?Htp, ?Hsl; cbn [negb andb];
    cbn [asset amount cost_basis last_sale_price last_sale_date
         take_profit_price stop_loss_price];
    rewrite ?Htp, ?Hsl; cbn [negb andb];
    eexists; (split; [reflexivity|]); cbn [amount take_profit_price stop_loss_price];
    auto.
Qed.

(** ** Dicts *)

(** X12.  [Transaction.to_dict] never fails on a missing key.  The dict
    it returns holds the asset under ["sid"] and [None] under
    ["commission"], has no ["asset"] and no ["type"], and under every
    other name holds what [__getitem__] gives for the transaction
    (which has neither a ["sid"] nor a ["commission"]). *)
Theorem Transaction_to_dict_items (txn : Transaction) :
  exists d : pydict,
    Transaction_to_dict txn = Some d /\
    dict_get "sid" d = Some (VAsset (txn_asset txn)) /\
    dict_get "sid" d = Transaction_getitem txn "asset" /\
    dict_get "commission" d = Some VNone /\
    dict_get "asset" d = None /\
    dict_get "type" d = None /\
    Transaction_getitem txn "sid" = None /\
    Transaction_getitem txn "commission" = None /\
    forall name : string,
      name <> "asset"%string -> name <> "type"%string ->
      name <> "sid"%string -> name <> "commission"%string ->
      dict_get name d = Transaction_getitem txn name.
Proof.
  eexists. split; [reflexivity|].
  repeat (split; [reflexivity|]).
  intros name H1 H2 H3 H4.
  unfold Transaction_getitem, Transaction_dict.
  cbn [dict_get dict_set filter fst negb String.eqb Ascii.eqb Bool.eqb].
  apply String.eqb_neq in H1, H2, H3, H4.
  rewrite ?H1, ?H2, ?H3, ?H4.
  repeat match goal with
         | |- context [String.eqb name ?k] => destruct (String.eqb name k)
         end; reflexivity.
Qed.


End LedgerMore.

(** ** The spec's worked examples, run on the model *)

Example weighted_average :
  let p := snd (update_all [buy_100; buy_50] (new_position (1%Z : @Asset demo_env))) in
  amount p == 150 /\ cost_basis p == 11.
Proof. split; q_decide. Qed.

Example reversal_resets_basis :
  let p := snd (update_all [buy_100; sell_150] (new_position (1%Z : @Asset demo_env))) in
  amount p == -(50) /\ cost_basis p == 20.
Proof. split; q_decide. Qed.

Example partial_cover_keeps_basis :
  let p := snd (update_all [buy_100; sell_40] (new_position (1%Z : @Asset demo_env))) in
  amount p == 60 /\ cost_basis p == 10.
Proof. split; q_decide. Qed.

Example commission_equity :
  cost_basis (snd (adjust_commission_cost_basis (1%Z : @Asset demo_env) 10 long_50_at_20))
  == 202 # 10.
Proof. q_decide. Qed.

Example commission_future :
  cost_basis (snd (adjust_commission_cost_basis (7%Z : @Asset demo_env) 10 long_50_future))
  == 2004 # 100.
Proof. q_decide. Qed.

#[export] Existing Instance binary64.

(** Splits on doubles.  The spec's example: 100 shares at 30.00, ratio 3. *)
Example split_residue :
  match handle_split (1%Z : @Asset demo_env) 3 long_100_at_30 with
  | (Ok return_cash, p) => amount p == 33 /\ cost_basis p == 90 /\ return_cash == 30
  | (Raise _, _) => False
  end.
Proof. vm_compute. repeat split. Qed.

(** [0.3 / 0.1] is [2.9999999999999996] on doubles: 0.3 of a share at
    ratio 0.1 becomes 2 shares, and the rest is paid as 5.00. *)
Example split_fractional_shares :
  handle_split (1%Z : @Asset demo_env) (double 0.1) long_0_3_at_50
  = (Ok (double 5),
     mkPosition (1%Z : @Asset demo_env) 2 (double 5) 50 (Some 1%Z) 0 0).
Proof. vm_compute. reflexivity. Qed.

(** [5.35 * 0.5] is a double just below 2.675: the cost basis becomes
    2.67, and 100 shares at ratio 0.5 become 200. *)
Example split_cost_basis_cents :
  handle_split (1%Z : @Asset demo_env) (double 0.5) long_100_at_5_35
  = (Ok (double 0),
     mkPosition (1%Z : @Asset demo_env) 200 (double 2.67) (double 5.35)
       (Some 1%Z) 0 0).
Proof. vm_compute. reflexivity. Qed.

(** [100 / 0.1] is [1000.0] on doubles, although the double [0.1] is
    above one tenth: 100 shares at ratio 0.1 become 1000. *)
Example split_by_a_tenth :
  1 # 10 < double 0.1 /\
  amount (snd (handle_split (1%Z : @Asset demo_env) (double 0.1) long_100_at_30))
  = 1000.
Proof. split; vm_compute; reflexivity. Qed.

(** ** Instances of the theorems *)

(** [update_cost_basis] at long 100 @ 10.00 plus a buy of 50 @ 13.00. *)
Lemma update_cost_basis_witness :
  asset_eqb (asset long_100) (txn_asset buy_50) = true /\
  1 # 1000 <= Qabs (amount long_100 + txn_amount buy_50) /\
  copysign1 (amount long_100) == copysign1 (txn_amount buy_50) /\
  cost_basis (snd (update buy_50 long_100)) =
    (cost_basis long_100 * amount long_100 + txn_amount buy_50 * txn_price buy_50)
    / (amount long_100 + txn_amount buy_50).
Proof.
  assert (Ha : asset_eqb (asset long_100) (txn_asset buy_50) = true) by reflexivity.
  assert (Ht : 1 # 1000 <= Qabs (amount long_100 + txn_amount buy_50)) by q_decide.
  assert (Hs : copysign1 (amount long_100) == copysign1 (txn_amount buy_50)) by q_decide.
  split; [exact Ha | split; [exact Ht | split; [exact Hs |]]].
  exact (proj1 (update_cost_basis long_100 (snd (update buy_50 long_100)) buy_50
                  (fst (update buy_50 long_100)) Ha Ht
                  (surjective_pairing (update buy_50 long_100))) Hs).
Defined.


(** Atomicity fails (C3): the buy of 50 @ 13.00 asks for a take-profit of
    11.00, below the new last sale price 13.00; [update] raises
    [ValueError] with [cost_basis], [last_sale_price] and [last_sale_date]
    already overwritten. *)
Lemma update_not_atomic :
  let p := long_100 in
  let p' := snd (update buy_50_tp_11 p) in
  fst (update buy_50_tp_11 p) = Raise ValueError /\
  cost_basis p == 10 /\ cost_basis p' == 11 /\
  last_sale_price p == 10 /\ last_sale_price p' == 13 /\
  last_sale_date p = Some 1%Z /\ last_sale_date p' = Some 2%Z /\
  ~ cost_basis p' == cost_basis p.
Proof. cbv zeta. repeat split; q_decide. Qed.

(** [raise_frame] at the same failing merge. *)
Lemma raise_frame_witness :
  call (CallUpdate buy_50_tp_11) long_100
    = (Raise ValueError, snd (update buy_50_tp_11 long_100)) /\
  ((ValueError = Exception "updating position with txn for a different asset" /\
    snd (update buy_50_tp_11 long_100) = long_100) \/
   (ValueError = ValueError /\
    1 # 1000 <= Qabs (amount long_100 + txn_amount buy_50_tp_11) /\
    same_except_take_profit (snd (update buy_50_tp_11 long_100))
      (before_exit_prices long_100 buy_50_tp_11) /\
    take_profit_kept_or_stored (before_exit_prices long_100 buy_50_tp_11)
      (snd (update buy_50_tp_11 long_100))
      (txn_take_profit_price buy_50_tp_11)
      (Some (amount long_100 + txn_amount buy_50_tp_11)))).
Proof.
  assert (H : call (CallUpdate buy_50_tp_11) long_100
              = (Raise ValueError, snd (update buy_50_tp_11 long_100)))
    by (vm_compute; reflexivity).
  split; [exact H|].
  exact (raise_frame (CallUpdate buy_50_tp_11) long_100 _ ValueError H).
Defined.

(** Rejection needs a level already set, and a last price to compare with
    (C4).  On a long position with last sale 100.00 and no take-profit or
    stop-loss set, a take-profit of 95.00 and a stop-loss of 105.00 are
    both accepted.  On a long position with both levels set, they are
    accepted as well when the call leaves [last_sale_price] out. *)
Lemma exit_price_accepted_when_unset :
  let p := long_no_exits in
  let q := long_with_exits in
  0 < amount p /\ last_sale_price p == 100 /\
  fst (update_exit_prices (Some 95) None None (Some (last_sale_price p)) p) = Ok tt /\
  fst (update_exit_prices None (Some 105) None (Some (last_sale_price p)) p) = Ok tt /\
  0 < amount q /\ last_sale_price q == 100 /\
  fst (update_exit_prices (Some 95) None None None q) = Ok tt /\
  fst (update_exit_prices None (Some 105) None None q) = Ok tt.
Proof. cbv zeta. repeat split; q_decide. Qed.

(** [exit_price_rejection] at a long position with both levels set:
    95.00 and 105.00 are rejected, 110.00 and 90.00 accepted. *)
Lemma exit_price_rejection_witness :
  let p := long_with_exits in
  let lsp := Some (last_sale_price p) in
  0 < amount p /\ last_sale_price p == 100 /\
  update_exit_prices (Some 95) None None lsp p = (Raise ValueError, p) /\
  update_exit_prices None (Some 105) None lsp p = (Raise ValueError, p) /\
  fst (update_exit_prices (Some 110) None None lsp p) = Ok tt /\
  fst (update_exit_prices None (Some 90) None lsp p) = Ok tt.
Proof.
  cbv zeta.
  assert (H1 : 0 < amount long_with_exits) by q_decide.
  assert (H2 : last_sale_price long_with_exits == 100) by q_decide.
  assert (H3 : ~ take_profit_price long_with_exits == 0) by q_decide.
  assert (H4 : ~ stop_loss_price long_with_exits == 0) by q_decide.
  destruct (exit_price_rejection long_with_exits H1 H2)
    as (Ht & _ & Hs & _ & Ht' & Hs').
  split; [exact H1 | split; [exact H2 |]].
  split; [exact (Ht H3) | split; [exact (Hs H4) |]].
  split; [now rewrite Ht' | now rewrite Hs'].
Defined.



(** [handle_split_ok] on doubles at the spec's example: 100 shares with
    cost basis 30.00 and ratio 3 give 33 shares, cost basis 90.00 and
    30.00 cash. *)
Lemma handle_split_ok_witness :
  asset_eqb (asset long_100_at_30) (1%Z : @Asset demo_env) = true /\
  ~ 3 == 0 /\
  exists (return_cash : Q) (p' : demo_position),
    handle_split (1%Z : @Asset demo_env) 3 long_100_at_30 = (Ok return_cash, p') /\
    amount p' == 33 /\ cost_basis p' == 90 /\ return_cash == 30.
Proof.
  assert (Ha : asset_eqb (asset long_100_at_30) (1%Z : @Asset demo_env) = true)
    by reflexivity.
  assert (Hr : ~ 3 == 0) by q_decide.
  split; [exact Ha | split; [exact Hr |]].
  eexists. eexists.
  split; [exact (handle_split_ok long_100_at_30 (1%Z : @Asset demo_env) 3 Ha Hr) |].
  repeat split; q_decide.
Defined.

(** [adjust_commission_cost_basis_ok] at the spec's example: long 50 @
    20.00 in a future with multiplier 5, commission 10.00: the cost basis
    becomes 20.04. *)
Lemma adjust_commission_cost_basis_ok_witness :
  asset_eqb (7%Z : @Asset demo_env) (asset long_50_future) = true /\
  adjust_commission_cost_basis (7%Z : @Asset demo_env) 10 long_50_future =
    (Ok tt, with_cost_basis long_50_future
              ((cost_basis long_50_future * amount long_50_future + 10 / 5)
               / amount long_50_future)) /\
  (cost_basis long_50_future * amount long_50_future + 10 / 5)
  / amount long_50_future == 2004 # 100.
Proof.
  assert (Ha : asset_eqb (7%Z : @Asset demo_env) (asset long_50_future) = true)
    by reflexivity.
  assert (Hc : ~ 10 == 0) by q_decide.
  assert (Hz : ~ amount long_50_future == 0) by q_decide.
  assert (Hm : ~ 5 == 0) by q_decide.
  split; [exact Ha | split; [| q_decide]].
  exact (proj2 (proj2 (adjust_commission_cost_basis_ok long_50_future
                         (7%Z : @Asset demo_env) 10 Ha)) Hc Hz 5 eq_refl Hm).
Defined.



(** [round_order] on doubles at 1.2345 shares with precision 0.01 and
    tolerance 0.0001: the rounded quantity is 1.23, and stays 1.23. *)
Example round_order_twice :
  round_order (double 0.0001) FractionalSharesRounding_default (double 1.2345)
  = Ok (double 1.23) /\
  round_order (double 0.0001) FractionalSharesRounding_default (double 1.23)
  = Ok (double 1.23).
Proof. split; vm_compute; reflexivity. Qed.

(** Rounding is not idempotent on doubles (C9).  With precision [1e-8]
    and any tolerance below [2^-13] (about [1.22e-4]; the float [1e-4] is
    one), the quantity [8193.535419139193] is rounded to [8193.53541913],
    which is 819353541913 steps; dividing it by [1e-8] gives
    [819353541912.9999], which is [2^-13] below that whole number, so that
    rounding again truncates it to 819353541912 steps and returns
    [8193.53541912]. *)
Lemma round_order_twice_differs :
  double 0.0001 < 1 # 8192 /\
  (forall epsilon : Q, epsilon < 1 # 8192 ->
     round_order epsilon FractionalSharesRounding_1e8 (double 8193.535419139193)
     = Ok (double 8193.53541913) /\
     round_order epsilon FractionalSharesRounding_1e8 (double 8193.53541913)
     = Ok (double 8193.53541912)) /\
  steps (double 0.0001) (double 0.00000001) (double 8193.535419139193)
  = 819353541913%Z /\
  steps (double 0.0001) (double 0.00000001) (double 8193.53541913)
  = 819353541912%Z /\
  double 8193.53541912 < double 8193.53541913.
Proof.
  split; [| split; [| split; [| split]]]; try (vm_compute; reflexivity).
  intros epsilon He. unfold FractionalSharesRounding_1e8.
  split; (rewrite round_order_far;
          [ vm_compute; reflexivity
          | vm_compute; reflexivity
          | eapply Qlt_le_trans; [exact He | q_decide] ]).
Qed.

(** [round_order_idempotent] on doubles at 1.239 shares with precision
    0.01 and tolerance 0.0001: the rounded quantity is 1.23, its quotient
    by 0.01 is [123.0], and rounding it again returns 1.23. *)
Lemma round_order_idempotent_witness :
  round_order (double 0.0001) FractionalSharesRounding_default (double 1.239)
  = Ok (double 1.23) /\
  double 0.0001 < 1 # 2 /\
  Qabs (float_div (double 1.23) (1 # 100)
        - inject_Z (steps (double 0.0001) (1 # 100) (double 1.239)))
  <= double 0.0001 /\
  round_order (double 0.0001) FractionalSharesRounding_default (double 1.23)
  = Ok (double 1.23).
Proof.
  assert (H : round_order (double 0.0001) FractionalSharesRounding_default
                (double 1.239) = Ok (double 1.23)) by (vm_compute; reflexivity).
  assert (He : double 0.0001 < 1 # 2) by (vm_compute; reflexivity).
  assert (Hn : Qabs (float_div (double 1.23) (1 # 100)
                     - inject_Z (steps (double 0.0001) (1 # 100) (double 1.239)))
               <= double 0.0001) by q_decide.
  split; [exact H | split; [exact He | split; [exact Hn |]]].
  exact (round_order_idempotent (double 0.0001) FractionalSharesRounding_default
           (double 1.239) (double 1.23) H He Hn).
Defined.

(** The float [-0.0] is an amount of zero whose direction is [-1] (C10).
    [-0.0 == 0] holds, and [copysign(1, -0.0)] is [-1.0]: on a position
    with last sale 100.00 and a take-profit already set, a take-profit of
    95.00 with [amount=-0.0] is accepted and stored, where with
    [amount=0.0] it raises [ValueError]. *)
Lemma negative_zero_amount :
  SFeqb (S754_zero true) (S754_zero false) = true /\
  float_copysign1 (S754_zero true) = -(1) /\
  float_copysign1 (S754_zero false) = 1 /\
  update_exit_prices_float (Some 95) None (S754_zero true) (Some 100) flat_with_exits
  = (Ok tt, with_take_profit flat_with_exits 95) /\
  update_exit_prices_float (Some 95) None (S754_zero false) (Some 100) flat_with_exits
  = (Raise ValueError, flat_with_exits).
Proof. repeat split. Qed.

(** [flat_amount_exit_prices] at a flat position with both levels set and
    last sale 100.00, the amount left to default: a take-profit of 95.00
    is rejected and a stop-loss of 105.00 as well, as for a long position;
    with [-0.0] for the amount both are accepted. *)
Lemma flat_amount_exit_prices_witness :
  effective_amount flat_with_exits None == 0 /\
  update_exit_prices (Some 95) None None (Some 100) flat_with_exits
  = (Raise ValueError, flat_with_exits) /\
  update_exit_prices None (Some 105) None (Some 100) flat_with_exits
  = (Raise ValueError, flat_with_exits) /\
  update_exit_prices_float (Some 95) (Some 105) (S754_zero true) (Some 100)
    flat_with_exits
  = (Ok tt, with_stop_loss (with_take_profit flat_with_exits 95) 105).
Proof.
  assert (Hz : effective_amount flat_with_exits None == 0) by q_decide.
  split; [exact Hz | split; [| split]].
  - exact (proj1 (flat_amount_exit_prices flat_with_exits
                    (Some 95) None None (Some 100) Hz)).
  - exact (proj1 (flat_amount_exit_prices flat_with_exits
                    None (Some 105) None (Some 100) Hz)).
  - exact (proj2 (proj2 (flat_amount_exit_prices flat_with_exits
                           (Some 95) (Some 105) None (Some 100) Hz))).
Defined.

(** ** Instances of the further properties *)

(** [update_without_exit_prices] at the buy of 50 into long 100. *)
Lemma update_without_exit_prices_witness :
  asset_eqb (asset long_100) (txn_asset buy_50) = true /\
  exists p' : demo_position,
    update buy_50 long_100 = (Ok tt, p') /\
    amount p' = amount long_100 + txn_amount buy_50 /\
    (1 # 1000 <= Qabs (amount long_100 + txn_amount buy_50) ->
     take_profit_price p' = take_profit_price long_100 /\
     stop_loss_price p' = stop_loss_price long_100).
Proof.
  assert (Ha : asset_eqb (asset long_100) (txn_asset buy_50) = true) by reflexivity.
  split; [exact Ha|].
  exact (update_without_exit_prices long_100 buy_50 Ha eq_refl eq_refl).
Defined.


(** [order_exit_prices_reach_position] at a fill of 10 @ 100.00 of the
    order with exit prices 120.00 and 80.00, into a new position. *)
Lemma order_exit_prices_reach_position_witness :
  let p := new_position (1%Z : @Asset demo_env) in
  asset_eqb (asset p) (asset_of_order order_with_exits) = true /\
  1 # 1000 <= Qabs (amount p + 10) /\
  exists p' : demo_position,
    update (create_transaction order_with_exits 3 100 10) p = (Ok tt, p') /\
    amount p' = amount p + 10 /\
    take_profit_price p' = 120 /\ stop_loss_price p' = 80.
Proof.
  cbv zeta.
  set (p := new_position (1%Z : @Asset demo_env)).
  assert (Ha : asset_eqb (asset p) (asset_of_order order_with_exits) = true)
    by reflexivity.
  assert (Htp : take_profit_price p == 0) by q_decide.
  assert (Hsl : stop_loss_price p == 0) by q_decide.
  assert (Ht : 1 # 1000 <= Qabs (amount p + 10)) by q_decide.
  split; [exact Ha | split; [exact Ht |]].
  destruct (order_exit_prices_reach_position p order_with_exits 3 100 10
              Ha Htp Hsl Ht) as (p' & Hrun & Ham & Htp' & Hsl').
  exists p'. split; [exact Hrun | split; [exact Ham | split]].
  - exact Htp'.
  - exact Hsl'.
Defined.
